(** * game-hub-backend: the recommendation request pipeline

    A shallow embedding of the two request pipelines of the repository:

    - [Functions]: [functions/index.js], the Cloud Functions deployment
      (auth guard, index-based references, 8 recommendations, summary);
    - [Server]: [index.js], the stand-alone server (id-based references,
      5 recommendations, no summary).

    JavaScript values are typed the way the code uses them.  A property that
    the code guards with [x || default] is a [JsOpt] (absent, null or a
    value); Firestore documents are records of such properties.  Effects
    (the module-level cache, the store read, the LLM call, token
    verification) are threaded through a small state/log/exception monad.
    [String.prototype.toLowerCase] is computed on ASCII strings and left to
    the runtime ([Lowering]) on all others. *)

From Stdlib Require Import ZArith QArith String Ascii List Bool Lia.
From stdpp Require Import base list strings gmap.

Set Warnings "-register-all".

Local Open Scope string_scope.
Local Open Scope Z_scope.
Local Open Scope list_scope.

(* ===================================================================== *)
(** ** JavaScript values as the code sees them *)
(* ===================================================================== *)

(** A property of a JavaScript object: [undefined] (absent), [null], or a
    value of the expected type. *)
Inductive JsOpt (A : Type) : Type :=
| Undefined
| Null
| Val (a : A).
Arguments Undefined {A}.
Arguments Null {A}.
Arguments Val {A} a.

(** [x || ""] on a string property: [undefined], [null] and [""] are falsy. *)
Definition orEmpty (x : JsOpt string) : string :=
  match x with
  | Val s => s
  | _ => ""
  end.

(** [x || []] on an array property (an array is always truthy). *)
Definition orNil {A : Type} (x : JsOpt (list A)) : list A :=
  match x with
  | Val l => l
  | _ => []
  end.

(** Strings are the UTF-8 bytes of the JavaScript strings.  On the ASCII
    range lower-casing is the same in every runtime: [A]-[Z] move to
    [a]-[z] and every other byte stays. *)
Definition lower_ascii (c : ascii) : ascii :=
  let n := nat_of_ascii c in
  if ((65 <=? n) && (n <=? 90))%nat then ascii_of_nat (n + 32) else c.

Fixpoint lowerAscii (s : string) : string :=
  match s with
  | EmptyString => EmptyString
  | String c rest => String (lower_ascii c) (lowerAscii rest)
  end.

(** The string has ASCII bytes only. *)
Fixpoint isAscii (s : string) : bool :=
  match s with
  | EmptyString => true
  | String c rest => (nat_of_ascii c <? 128)%nat && isAscii rest
  end.

(** What the runtime's Unicode case mapping does to a string that is not
    plain ASCII ([POKÉMON] to [pokémon], and so on).  The development fixes
    nothing about it: every definition and theorem below holds for
    whatever mapping the runtime implements. *)
Class Lowering : Type := {
  lowerUnicode : string -> string
}.

(** [String.prototype.toLowerCase]. *)
Definition toLowerCase {L : Lowering} (s : string) : string :=
  if isAscii s then lowerAscii s else lowerUnicode s.
Arguments toLowerCase : simpl never.

(** [x === s] for a string property [x] and a string [s]. *)
Definition strictEq (x : JsOpt string) (s : string) : bool :=
  match x with
  | Val v => String.eqb v s
  | _ => false
  end.

(** [Array.prototype.includes] on an array of strings. *)
Definition includes (l : list string) (x : string) : bool :=
  existsb (String.eqb x) l.

(** [Array.prototype.find]. *)
Fixpoint find_first {A : Type} (p : A -> bool) (l : list A) : option A :=
  match l with
  | [] => None
  | x :: rest => if p x then Some x else find_first p rest
  end.

(** [arr[i]] for an integer [i]: [undefined] outside [0, arr.length). *)
Definition at_index {A : Type} (arr : list A) (i : Z) : option A :=
  if i <? 0 then None else arr !! Z.to_nat i.

(* ===================================================================== *)
(** ** Firestore documents of the [rawgTopGames] collection *)
(* ===================================================================== *)

(** A genre object of a stored game. *)
Record Genre : Type := mkGenre {
  gen_id : Z;
  gen_name : string;
  gen_slug : string
}.

(** [doc.data()] of a stored game. *)
Record Doc : Type := mkDoc {
  doc_id : JsOpt Z;
  doc_name : JsOpt string;
  doc_genres : JsOpt (list Genre);
  doc_rating : JsOpt Q;
  doc_slug : JsOpt string
}.

(* ===================================================================== *)
(** ** JSON values and the structured-output schema language *)
(* ===================================================================== *)

(** A parsed JSON value.  An object is the list of its members in order;
    the keys of a parsed object are pairwise distinct. *)
Inductive Json : Type :=
| JNull
| JBool (b : bool)
| JNum (q : Q)
| JStr (s : string)
| JArr (items : list Json)
| JObj (members : list (string * Json)).

(** [obj[key]] on the members of an object. *)
Fixpoint getProp (key : string) (members : list (string * Json)) : option Json :=
  match members with
  | [] => None
  | (k, v) :: rest => if String.eqb k key then Some v else getProp key rest
  end.

(** The JSON-schema subset that the two requests use. *)
Inductive Schema : Type :=
| SString
| SNumber
| SInteger (enum : option (list Z))
| SArray (minItems maxItems : option nat) (items : Schema)
| SObject (properties : list (string * Schema)) (required : list string)
          (additionalProperties : bool).

(** A JSON number is an integer when its fraction is zero. *)
Definition isInteger (q : Q) : bool := Qnum q mod Zpos (Qden q) =? 0.
Definition integerValue (q : Q) : Z := Qnum q / Zpos (Qden q).

Definition hasKey (key : string) (members : list (string * Json)) : bool :=
  existsb (fun kv => String.eqb (fst kv) key) members.

Definition atLeast (bound : option nat) (n : nat) : bool :=
  match bound with
  | Some m => (m <=? n)%nat
  | None => true
  end.

Definition atMost (bound : option nat) (n : nat) : bool :=
  match bound with
  | Some m => (n <=? m)%nat
  | None => true
  end.

(** Validation of a value against a schema, as the LLM service enforces it
    in strict mode. *)
Fixpoint validates (s : Schema) (v : Json) {struct s} : bool :=
  match s, v with
  | SString, JStr _ => true
  | SNumber, JNum _ => true
  | SInteger enum, JNum q =>
      isInteger q &&
      match enum with
      | Some allowed => existsb (Z.eqb (integerValue q)) allowed
      | None => true
      end
  | SArray minItems maxItems items, JArr vs =>
      atLeast minItems (length vs) && atMost maxItems (length vs) &&
      forallb (validates items) vs
  | SObject properties required additionalProperties, JObj members =>
      forallb (fun key => hasKey key members) required &&
      forallb
        (fun kv =>
           (fix member (props : list (string * Schema)) : bool :=
              match props with
              | [] => additionalProperties
              | (k, sk) :: rest =>
                  if String.eqb k (fst kv) then validates sk (snd kv)
                  else member rest
              end) properties)
        members
  | _, _ => false
  end.

(** [text.format] of a [client.responses.create] call. *)
Record TextFormat : Type := mkTextFormat {
  format_type : string;
  format_name : string;
  format_strict : bool;
  format_schema : Schema
}.

(** The argument of [client.responses.create]. *)
Record LlmRequest : Type := mkLlmRequest {
  req_model : string;
  req_input : string;
  req_format : TextFormat
}.

(** [Array.prototype.join] on strings. *)
Fixpoint join (sep : string) (l : list string) : string :=
  match l with
  | [] => ""
  | [x] => x
  | x :: rest => x ++ sep ++ join sep rest
  end.

(* ===================================================================== *)
(** ** Effects: cache state, remote calls, exceptions *)
(* ===================================================================== *)

(** A thrown [Error]. *)
Record Error : Type := mkError {
  err_name : string;
  err_message : string
}.

(** [err.message || err.toString()]. *)
Definition messageOrToString (e : Error) : string :=
  if String.eqb (err_message e) "" then err_name e else err_message e.

Inductive Result (A : Type) : Type :=
| Ok (a : A)
| Throw (e : Error).
Arguments Ok {A} a.
Arguments Throw {A} e.

(** The calls that leave the process. *)
Inductive Event : Type :=
| StoreGet (collection : string)
| VerifyIdToken (idToken : string)
| LlmCreate (request : LlmRequest).

Definition isStoreGet (e : Event) : bool :=
  match e with StoreGet _ => true | _ => false end.
Definition isLlmCreate (e : Event) : bool :=
  match e with LlmCreate _ => true | _ => false end.

(** Number of store reads in a trace. *)
Definition storeReads (trace : list Event) : nat :=
  length (List.filter isStoreGet trace).
(** Number of LLM calls in a trace. *)
Definition llmCalls (trace : list Event) : nat :=
  length (List.filter isLlmCreate trace).

(** The module-level variables [cachedGames] and [cachedAt]. *)
Record Cache (G : Type) : Type := mkCache {
  cachedGames : option (list G);
  cachedAt : Z
}.
Arguments mkCache {G} _ _.
Arguments cachedGames {G} _.
Arguments cachedAt {G} _.

(** [let cachedGames = null; let cachedAt = 0;] *)
Definition initialCache {G : Type} : Cache G := mkCache None 0.

(** A computation over the process state [S]: its result or exception, the
    state it leaves, and the remote calls it made, in order. *)
Definition M (S A : Type) : Type := S -> Result A * S * list Event.

Definition ret {S A : Type} (a : A) : M S A := fun s => (Ok a, s, []).

Definition throw {S A : Type} (e : Error) : M S A := fun s => (Throw e, s, []).

Definition bind {S A B : Type} (m : M S A) (k : A -> M S B) : M S B :=
  fun s =>
    match m s with
    | (Ok a, s1, t1) =>
        match k a s1 with
        | (r, s2, t2) => (r, s2, t1 ++ t2)
        end
    | (Throw e, s1, t1) => (Throw e, s1, t1)
    end.

(** [try { m } catch (err) { handler(err) }]. *)
Definition tryCatch {S A : Type} (m : M S A) (handler : Error -> M S A) : M S A :=
  fun s =>
    match m s with
    | (Ok a, s1, t1) => (Ok a, s1, t1)
    | (Throw e, s1, t1) =>
        match handler e s1 with
        | (r, s2, t2) => (r, s2, t1 ++ t2)
        end
    end.

Definition get {S : Type} : M S S := fun s => (Ok s, s, []).
Definition put {S : Type} (s' : S) : M S unit := fun _ => (Ok tt, s', []).

(** A remote call: logged, then answered by the environment. *)
Definition call {S A : Type} (e : Event) (answer : Result A) : M S A :=
  fun s => (answer, s, [e]).

(** A value or exception computed without effects. *)
Definition lift {S A : Type} (r : Result A) : M S A :=
  match r with
  | Ok a => ret a
  | Throw e => throw e
  end.

Declare Scope eff_scope.
Delimit Scope eff_scope with eff.
Notation "x <- m ;; k" := (bind m (fun x => k))
  (at level 100, m at next level, right associativity) : eff_scope.
Notation "m ;;; k" := (bind m (fun _ => k))
  (at level 100, right associativity) : eff_scope.

(** What [db.collection(name).get()] answers. *)
Inductive StoreReply : Type :=
| Snapshot (docs : list Doc)
| StoreFailure (e : Error).

Definition storeAnswer (reply : StoreReply) : Result (list Doc) :=
  match reply with
  | Snapshot docs => Ok docs
  | StoreFailure e => Throw e
  end.

Definition CACHE_TTL_MS : Z := 10 * 60 * 1000.

(** The guard of both [loadCandidateGames]:
    [!force && cachedGames && now - cachedAt < CACHE_TTL_MS], with the
    cached array when it holds. *)
Definition cacheHit {G : Type} (force : bool) (now : Z) (c : Cache G)
  : option (list G) :=
  if negb force then
    match cachedGames c with
    | Some games => if now - cachedAt c <? CACHE_TTL_MS then Some games else None
    | None => None
    end
  else None.

(** The body of [loadCandidateGames(force)], the same in both files up to
    [fromDoc], the callback of [snapshot.docs.map]: [now] is what
    [Date.now()] reads and [store] what the store answers if it is asked. *)
Definition loadCandidateGamesWith {G : Type} (fromDoc : Doc -> G)
  (store : StoreReply) (now : Z) (force : bool) : M (Cache G) (list G) :=
  (c <- get ;;
   match cacheHit force now c with
   | Some games => ret games
   | None =>
       docs <- call (StoreGet "rawgTopGames") (storeAnswer store) ;;
       let games := map fromDoc docs in
       put (mkCache (Some games) now) ;;;
       ret games
   end)%eff.

(** An HTTP response: [res.status(code).json(body)]. *)
Inductive Body (P : Type) : Type :=
| ErrorBody (error : string)
| OkBody (payload : P).
Arguments ErrorBody {P} error.
Arguments OkBody {P} payload.

Record Response (P : Type) : Type := mkResponse {
  status : Z;
  body : Body P
}.
Arguments mkResponse {P} _ _.
Arguments status {P} _.
Arguments body {P} _.

(** An HTTP request after [express.json()]: the [Authorization] header and
    the members of the parsed body object. *)
Record Request : Type := mkRequest {
  authorization : option string;
  req_body : list (string * Json)
}.

(** [favorites.map((f) => f.toLowerCase())] throws a [TypeError] on the
    first element that is not a string; [asStrings] is the typed view of an
    array on which it does not. *)
Definition notAString (v : Json) : Error :=
  match v with
  | JNull => mkError "TypeError" "Cannot read properties of null (reading 'toLowerCase')"
  | _ => mkError "TypeError" "f.toLowerCase is not a function"
  end.

Fixpoint asStrings (l : list Json) : Result (list string) :=
  match l with
  | [] => Ok []
  | JStr s :: rest =>
      match asStrings rest with
      | Ok ss => Ok (s :: ss)
      | Throw e => Throw e
      end
  | v :: _ => Throw (notAString v)
  end.

(** Pieces of template literals: a line break and a double quote. *)
Definition nl : string := String (ascii_of_nat 10) "".
Definition dq : string := String (ascii_of_nat 34) "".
Definition quoted (s : string) : string := dq ++ s ++ dq.

(** The text whose lines are [lines]. *)
Definition text (lines : list string) : string := join nl lines.

(** [needle] occurs in [hay]. *)
Definition occurs_in (needle hay : string) : Prop :=
  exists pre post : string, hay = (pre ++ needle ++ post)%string.

(** [/^Bearer (.+)$/]: the capture, when the header is [Bearer ] followed
    by at least one character and no line break. *)
Fixpoint noLineBreak (s : string) : bool :=
  match s with
  | EmptyString => true
  | String c rest =>
      negb (Ascii.eqb c (ascii_of_nat 10)) && negb (Ascii.eqb c (ascii_of_nat 13))
      && noLineBreak rest
  end.

Definition matchBearer (header : string) : option string :=
  if String.prefix "Bearer " header then
    let token := String.substring 7 (String.length header - 7) header in
    if negb (String.eqb token "") && noLineBreak token then Some token else None
  else None.

(** The decoded identity token, as far as the guard reads it. *)
Record DecodedToken : Type := mkDecodedToken {
  email : JsOpt string
}.

(* ===================================================================== *)
(** ** functions/index.js *)
(* ===================================================================== *)

Module Functions.

(** [loadCandidateGames] caches [doc.data()] itself. *)
Abbreviation Game := Doc.

(** The match key of a game: [(g.name || "").toLowerCase()]. *)
Definition nameKey {L : Lowering} (g : Game) : string := toLowerCase (orEmpty (doc_name g)).

(** [filterByGenre(candidates, favorites)], lines 63-84. *)
Definition filterByGenre {L : Lowering} (candidates : list Game) (favorites : list string)
  : list Game :=
  let favLower := map toLowerCase favorites in
  let favGames := List.filter (fun g => includes favLower (nameKey g)) candidates in
  let favGenres : gset string :=
    list_to_set (flat_map (fun g => map gen_name (orNil (doc_genres g))) favGames) in
  if (size favGenres =? 0)%nat then candidates
  else
    let filtered :=
      List.filter
        (fun g => existsb (fun gen => bool_decide (gen_name gen ∈ favGenres))
                          (orNil (doc_genres g)))
        candidates in
    if (length filtered =? 0)%nat then candidates else filtered.

(** Lines 148-154: the genre-filtered pool without the user's favorites. *)
Definition excludeFavorites {L : Lowering} (genreFiltered : list Game) (favorites : list string)
  : list Game :=
  let favoritesLower := map toLowerCase favorites in
  List.filter (fun g => negb (includes favoritesLower (nameKey g))) genreFiltered.

(** Lines 147-164 of the [/recommend] handler: the pool shown to the model. *)
Definition selectPool {L : Lowering} (genreFiltered candidates : list Game)
  (favorites : list string) : list Game :=
  let pool := excludeFavorites genreFiltered favorites in
  let pool := if (length pool <? 8)%nat then genreFiltered else pool in
  let pool := if (length pool <? 8)%nat then candidates else pool in
  pool.

(** The pool of a request: lines 145-164. *)
Definition requestPool {L : Lowering} (candidates : list Game) (favorites : list string)
  : list Game :=
  selectPool (filterByGenre candidates favorites) candidates favorites.


(** *** Candidate cache, lines 43-60 *)

(** [loadCandidateGames(force)], with the callback [(doc) => doc.data()]. *)
Definition loadCandidateGames : StoreReply -> Z -> bool -> M (Cache Game) (list Game) :=
  loadCandidateGamesWith (fun doc : Doc => doc).

(** *** Prompt and schema, lines 166-238 *)

(** An entry of the list shown to the model. *)
Record Simplified : Type := mkSimplified {
  s_index : Z;
  s_name : JsOpt string;
  s_genres : JsOpt (list Genre);
  s_rating : JsOpt Q
}.

Definition simplified (pool : list Game) : list Simplified :=
  imap (fun idx g =>
          mkSimplified (Z.of_nat idx) (doc_name g) (doc_genres g) (doc_rating g))
       pool.

Definition validIndexes (pool : list Game) : list Z :=
  map s_index (simplified pool).

(** The template literal of lines 176-199; [serialized] is
    [JSON.stringify(simplified, null, 2)]. *)
Definition prompt (favorites : list string) (serialized : string) : string :=
  text [
    "";
    ("User favorites: " ++ join ", " favorites ++ ".")%string;
    "";
    "You are a game recommendation engine.";
    "You MUST ONLY recommend from the following candidate games array.";
    ("Each game has a numeric " ++ quoted "index" ++ ". Use this "
       ++ quoted "index" ++ " to reference games.")%string;
    "DO NOT invent new games or indices that are not in the list.";
    "";
    "Candidate games (JSON array):";
    serialized;
    "";
    "From ONLY these candidate games:";
    "";
    "1. Select **8 games** the user is most likely to enjoy.";
    "2. Provide a **summary** explaining WHY (overall reasoning).";
    "";
    "Return ONLY JSON like:";
    "{";
    ("  " ++ quoted "summary" ++ ": string,")%string;
    ("  " ++ quoted "recommendations" ++ ": [")%string;
    ("    { " ++ quoted "index" ++ ": number, " ++ quoted "reason" ++ ": string }")%string;
    "  ]";
    "}";
    ""
  ].

(** [text.format.schema], lines 209-235. *)
Definition itemSchema (pool : list Game) : Schema :=
  SObject [("index", SInteger (Some (validIndexes pool))); ("reason", SString)]
          ["index"; "reason"] false.

Definition outputSchema (pool : list Game) : Schema :=
  SObject
    [("summary", SString);
     ("recommendations", SArray (Some 8%nat) (Some 8%nat) (itemSchema pool))]
    ["summary"; "recommendations"] false.

(** The argument of [client.responses.create], lines 201-238. *)
Definition llmRequest (pool : list Game) (favorites : list string)
  (serialized : string) : LlmRequest :=
  mkLlmRequest "gpt-4.1-mini" (prompt favorites serialized)
    (mkTextFormat "json_schema" "game_recommendations" true (outputSchema pool)).

(** *** Reconciliation, lines 240-251 *)

(** An element of [llmResult.recommendations]. *)
Record Item : Type := mkItem {
  index : Z;
  reason : string
}.

(** [JSON.parse(response.output_text)]. *)
Record ModelOutput : Type := mkModelOutput {
  out_summary : string;
  out_recommendations : list Item
}.

(** An element of the [recommendations] of the response. *)
Record Recommendation : Type := mkRecommendation {
  rec_id : JsOpt Z;
  rec_name : JsOpt string;
  rec_genres : JsOpt (list Genre);
  rec_rating : JsOpt Q;
  rec_slug : JsOpt string;
  rec_reason : string
}.

(** [{ ...game, reason }]. *)
Definition enriched (game : Game) (reason : string) : Recommendation :=
  mkRecommendation (doc_id game) (doc_name game) (doc_genres game)
                   (doc_rating game) (doc_slug game) reason.

(** [{ id: null, name: null, reason }]. *)
Definition degraded (reason : string) : Recommendation :=
  mkRecommendation Null Null Undefined Undefined Undefined reason.

(** The callback of lines 242-251. *)
Definition reconcile (pool : list Game) (r : Item) : Recommendation :=
  match at_index pool (index r) with
  | None => degraded (reason r)
  | Some game => enriched game (reason r)
  end.

Definition finalResult (pool : list Game) (recommendations : list Item)
  : list Recommendation :=
  map (reconcile pool) recommendations.

(** *** The routes *)

(** The body of a successful [/recommend] response. *)
Record Payload : Type := mkPayload {
  summary : string;
  recommendations : list Recommendation
}.

(** What the LLM service answers: the call rejects, or it returns text
    that [JSON.parse] turns into the declared shape or rejects. *)
Inductive LlmReply : Type :=
| LlmFailure (e : Error)
| LlmText (parsed : Result ModelOutput).

Definition llmAnswer (reply : LlmReply) : Result (Result ModelOutput) :=
  match reply with
  | LlmFailure e => Throw e
  | LlmText parsed => Ok parsed
  end.

(** The process and its surroundings during one request: whether the
    module-level [client] was created, what [Date.now()] reads, what the
    store, the token verifier and the LLM service answer, and
    [JSON.stringify] on the list shown to the model. *)
Record Env : Type := mkEnv {
  client : bool;
  now : Z;
  store : StoreReply;
  verifyIdToken : string -> Result DecodedToken;
  stringify : list Simplified -> string;
  llm : LlmRequest -> LlmReply
}.

(** The outcome of a middleware: it answered, or it called [next()]. *)
Inductive Guard : Type :=
| Responded (r : Response Payload)
| Next (user : DecodedToken).

(** [authGuard], lines 17-39. *)
Definition authGuard (env : Env) (req : Request) : M (Cache Game) Guard :=
  tryCatch
    (let authHeader := match authorization req with
                       | Some header => header
                       | None => ""
                       end in
     match matchBearer authHeader with
     | None => ret (Responded (mkResponse 401 (ErrorBody "Missing Authorization header")))
     | Some idToken =>
         (decoded <- call (VerifyIdToken idToken) (verifyIdToken env idToken) ;;
          if negb (strictEq (email decoded) "yzhou677@gmail.com") then
            ret (Responded (mkResponse 403 (ErrorBody "Not allowed")))
          else ret (Next decoded))%eff
     end)
    (fun _ => ret (Responded (mkResponse 401 (ErrorBody "Invalid or expired token")))).

(** The handler of [POST /recommend], lines 126-264. *)
Definition recommendHandler {L : Lowering} (env : Env) (req : Request)
  : M (Cache Game) (Response Payload) :=
  tryCatch
    (if negb (client env) then
       ret (mkResponse 500 (ErrorBody "OpenAI is not configured on the server"))
     else
       match getProp "favorites" (req_body req) with
       | Some (JArr (f :: fs)) =>
           (candidates <- loadCandidateGames (store env) (now env) false ;;
            favorites <- lift (asStrings (f :: fs)) ;;
            let genreFiltered := filterByGenre candidates favorites in
            let pool := selectPool genreFiltered candidates favorites in
            let request :=
              llmRequest pool favorites (stringify env (simplified pool)) in
            parsed <- call (LlmCreate request) (llmAnswer (llm env request)) ;;
            llmResult <- lift parsed ;;
            ret (mkResponse 200
                   (OkBody (mkPayload (out_summary llmResult)
                              (finalResult pool (out_recommendations llmResult))))))%eff
       | _ =>
           ret (mkResponse 400 (ErrorBody "favorites must be a non-empty array"))
       end)
    (fun err => ret (mkResponse 500 (ErrorBody (messageOrToString err)))).

(** [app.post("/recommend", authGuard, handler)]. *)
Definition recommendRoute {L : Lowering} (env : Env) (req : Request)
  : M (Cache Game) (Response Payload) :=
  (guard <- authGuard env req ;;
   match guard with
   | Responded r => ret r
   | Next _ => recommendHandler env req
   end)%eff.

(** [app.post("/admin/reload-candidates", ...)], lines 95-103; the payload
    of its success body [{ ok: true }] is [true]. *)
Definition reloadRoute (env : Env) : M (Cache Game) (Response bool) :=
  tryCatch
    (loadCandidateGames (store env) (now env) true ;;;
     ret (mkResponse 200 (OkBody true)))%eff
    (fun _ => ret (mkResponse 500 (ErrorBody "Failed to reload candidates"))).

End Functions.

(* ===================================================================== *)
(** ** index.js *)
(* ===================================================================== *)

Module Server.

(** A cached candidate: the five properties that [loadCandidateGames]
    copies out of a document, genres already reduced to their names. *)
Record Game : Type := mkGame {
  game_id : JsOpt Z;
  game_name : JsOpt string;
  game_genres : JsOpt (list string);
  game_rating : JsOpt Q;
  game_slug : JsOpt string
}.

(** The callback of [snapshot.docs.map], lines 43-49. *)
Definition fromDoc (doc : Doc) : Game :=
  mkGame (doc_id doc) (doc_name doc)
         (Val (map gen_name (orNil (doc_genres doc))))
         (doc_rating doc) (doc_slug doc).

(** *** Candidate cache, lines 26-61 *)

(** [loadCandidateGames(force)]. *)
Definition loadCandidateGames : StoreReply -> Z -> bool -> M (Cache Game) (list Game) :=
  loadCandidateGamesWith fromDoc.

(** The preload of lines 59-61: a failure is logged and ignored. *)
Definition preload (store : StoreReply) (now : Z) : M (Cache Game) unit :=
  tryCatch
    (loadCandidateGames store now false ;;; ret tt)%eff
    (fun _ => ret tt).

(** *** Genre filter, lines 70-96 *)

(** The match key of a game: [(g.name || "").toLowerCase()]. *)
Definition nameKey {L : Lowering} (g : Game) : string := toLowerCase (orEmpty (game_name g)).

(** [filterByGenre(candidates, favorites)]. *)
Definition filterByGenre {L : Lowering} (candidates : list Game) (favorites : list string)
  : list Game :=
  let favLower := map toLowerCase favorites in
  let favGames := List.filter (fun g => includes favLower (nameKey g)) candidates in
  let favGenres : gset string :=
    list_to_set (flat_map (fun g => orNil (game_genres g)) favGames) in
  if (size favGenres =? 0)%nat then candidates
  else
    let filtered :=
      List.filter
        (fun g => existsb (fun genre => bool_decide (genre ∈ favGenres))
                          (orNil (game_genres g)))
        candidates in
    if (length filtered =? 0)%nat then candidates else filtered.

(** *** Prompt and schema, lines 146-198 *)

(** An entry of the list shown to the model. *)
Record Simplified : Type := mkSimplified {
  s_id : JsOpt Z;
  s_name : JsOpt string;
  s_genres : JsOpt (list string);
  s_rating : JsOpt Q
}.

Definition simplified (filteredCandidates : list Game) : list Simplified :=
  map (fun g => mkSimplified (game_id g) (game_name g) (game_genres g) (game_rating g))
      filteredCandidates.

(** The template literal of lines 154-167; [serialized] is
    [JSON.stringify(simplified)]. *)
Definition prompt (favorites : list string) (serialized : string) : string :=
  text [
    "";
    ("User favorites: " ++ join ", " favorites ++ ".")%string;
    "";
    "Candidate games (JSON array):";
    serialized;
    "";
    "From ONLY these candidate games, select 5 games the user is most likely to enjoy.";
    "Return ONLY JSON like:";
    "{";
    ("  " ++ quoted "recommendations" ++ ": [")%string;
    ("    { " ++ quoted "id" ++ ": number, " ++ quoted "reason" ++ ": string }")%string;
    "  ]";
    "}";
    ""
  ].

(** [text.format.schema], lines 177-195. *)
Definition itemSchema : Schema :=
  SObject [("id", SNumber); ("reason", SString)] ["id"; "reason"] false.

Definition outputSchema : Schema :=
  SObject [("recommendations", SArray None None itemSchema)]
          ["recommendations"] false.

(** The argument of [client.responses.create], lines 169-198. *)
Definition llmRequest (favorites : list string) (serialized : string)
  : LlmRequest :=
  mkLlmRequest "gpt-4.1-mini" (prompt favorites serialized)
    (mkTextFormat "json_schema" "game_recommendations" true outputSchema).

(** *** Reconciliation, lines 200-214 *)

(** An element of [llmResult.recommendations]; identifiers are the integer
    ids of the store. *)
Record Item : Type := mkItem {
  id : Z;
  reason : string
}.

(** An element of the [recommendations] of the response. *)
Record Recommendation : Type := mkRecommendation {
  rec_id : JsOpt Z;
  rec_name : JsOpt string;
  rec_genres : JsOpt (list string);
  rec_rating : JsOpt Q;
  rec_slug : JsOpt string;
  rec_reason : string
}.

(** [{ ...game, reason }]. *)
Definition enriched (game : Game) (reason : string) : Recommendation :=
  mkRecommendation (game_id game) (game_name game) (game_genres game)
                   (game_rating game) (game_slug game) reason.

(** [{ id, name: null, reason }]. *)
Definition degraded (id : Z) (reason : string) : Recommendation :=
  mkRecommendation (Val id) Null Undefined Undefined Undefined reason.

(** [g.id === r.id]. *)
Definition hasId (wanted : Z) (g : Game) : bool :=
  match game_id g with
  | Val i => i =? wanted
  | _ => false
  end.

(** The callback of lines 203-214. *)
Definition reconcile (candidates : list Game) (r : Item) : Recommendation :=
  match find_first (hasId (id r)) candidates with
  | None => degraded (id r) (reason r)
  | Some game => enriched game (reason r)
  end.

Definition finalResult (candidates : list Game) (recommendations : list Item)
  : list Recommendation :=
  map (reconcile candidates) recommendations.

(** *** The routes *)

(** What the LLM service answers: the call rejects, or it returns text
    that [JSON.parse] turns into the list under [recommendations] or
    rejects. *)
Inductive LlmReply : Type :=
| LlmFailure (e : Error)
| LlmText (parsed : Result (list Item)).

Definition llmAnswer (reply : LlmReply) : Result (Result (list Item)) :=
  match reply with
  | LlmFailure e => Throw e
  | LlmText parsed => Ok parsed
  end.

(** The process and its surroundings during one request: what
    [Date.now()] reads, what the store and the LLM service answer, and
    [JSON.stringify] on the list shown to the model. *)
Record Env : Type := mkEnv {
  now : Z;
  store : StoreReply;
  stringify : list Simplified -> string;
  llm : LlmRequest -> LlmReply
}.

(** The handler of [POST /recommend], lines 129-221; the payload of its
    success body is the list under [recommendations]. *)
Definition recommendHandler {L : Lowering} (env : Env) (req : Request)
  : M (Cache Game) (Response (list Recommendation)) :=
  tryCatch
    (match getProp "favorites" (req_body req) with
     | Some (JArr (f :: fs)) =>
         (candidates <- loadCandidateGames (store env) (now env) false ;;
          favorites <- lift (asStrings (f :: fs)) ;;
          let filteredCandidates := filterByGenre candidates favorites in
          let request :=
            llmRequest favorites (stringify env (simplified filteredCandidates)) in
          parsed <- call (LlmCreate request) (llmAnswer (llm env request)) ;;
          recommendations <- lift parsed ;;
          ret (mkResponse 200 (OkBody (finalResult candidates recommendations))))%eff
     | _ =>
         ret (mkResponse 400 (ErrorBody "favorites must be a non-empty array"))
     end)
    (fun _ => ret (mkResponse 500 (ErrorBody "Internal LLM or Firestore error"))).

(** [app.post("/admin/reload-candidates", ...)], lines 113-121; the payload
    of its success body [{ ok: true }] is [true]. *)
Definition reloadRoute (env : Env) : M (Cache Game) (Response bool) :=
  tryCatch
    (loadCandidateGames (store env) (now env) true ;;;
     ret (mkResponse 200 (OkBody true)))%eff
    (fun _ => ret (mkResponse 500 (ErrorBody "Failed to reload candidates"))).

End Server.

(* ===================================================================== *)
(** ** Vocabulary of the specification *)
(* ===================================================================== *)

(** "No favorite string equals any candidate's name under
    case-insensitive comparison", [names] being the [name] properties of
    the candidates: a candidate without a name has none to be equal to. *)
Definition noFavoriteNamed {L : Lowering} (names : list (JsOpt string)) (favorites : list string)
  : Prop :=
  forall name n f,
    name ∈ names -> name = Val n -> f ∈ favorites ->
    toLowerCase f <> toLowerCase n.

(** The same, a missing name counting as the empty name, as the code's
    [g.name || ""] has it. *)
Definition noFavoriteKeyed {L : Lowering} (names : list (JsOpt string)) (favorites : list string)
  : Prop :=
  forall name f,
    name ∈ names -> f ∈ favorites ->
    toLowerCase f <> toLowerCase (orEmpty name).

(** The [favorites] member of a request body is missing, is not a list, or
    is an empty list. *)
Definition favoritesRejected (body : list (string * Json)) : Prop :=
  getProp "favorites" body = None \/
  (exists v, getProp "favorites" body = Some v /\ forall items, v <> JArr items) \/
  getProp "favorites" body = Some (JArr []).

(** The response [400 {error: "favorites must be a non-empty array"}]. *)
Definition rejection {P : Type} : Response P :=
  mkResponse 400 (ErrorBody "favorites must be a non-empty array").

(** An object has a member called [key]. *)
Definition hasMember (key : string) (members : list (string * Json)) : Prop :=
  exists x, (key, x) ∈ members.

(** The declared item type [{index: integer ∈ domain, reason: string}],
    unknown fields disallowed. *)
Definition DeclaredItem (domain : Z -> Prop) (v : Json) : Prop :=
  exists members,
    v = JObj members /\
    hasMember "index" members /\ hasMember "reason" members /\
    forall k x, (k, x) ∈ members ->
      (k = "index" /\
       exists (q : Q) (i : Z), x = JNum q /\ (q == inject_Z i)%Q /\ domain i) \/
      (k = "reason" /\ exists s, x = JStr s).

(** The declared output type
    [{summary: string, recommendations: [item] × exactly 8}], unknown fields
    disallowed. *)
Definition DeclaredOutput (domain : Z -> Prop) (v : Json) : Prop :=
  exists members,
    v = JObj members /\
    hasMember "summary" members /\ hasMember "recommendations" members /\
    forall k x, (k, x) ∈ members ->
      (k = "summary" /\ exists s, x = JStr s) \/
      (k = "recommendations" /\
       exists items, x = JArr items /\ length items = 8%nat /\
                     forall item, item ∈ items -> DeclaredItem domain item).

(** The index domain of a pool: the positions [0 .. |pool| - 1]. *)
Definition indexDomain {G : Type} (pool : list G) (i : Z) : Prop :=
  0 <= i < Z.of_nat (length pool).

(** The request carries the header [Authorization: Bearer <idToken>] with a
    non-empty token on one line. *)
Definition bearerOf (req : Request) (idToken : string) : Prop :=
  authorization req = Some ("Bearer " ++ idToken)%string /\
  idToken <> "" /\ noLineBreak idToken = true.

(** The one identity that the auth guard of functions/index.js lets
    through (line 29). *)
Definition allowedEmail : string := "yzhou677@gmail.com".

(** A cache that [loadCandidateGames()] has to refill at time [now]: it is
    empty or its value is at least [CACHE_TTL_MS] old. *)
Definition staleAt {G : Type} (now : Z) (c : Cache G) : Prop :=
  cachedGames c = None \/ CACHE_TTL_MS <= now - cachedAt c.

(** A cache that holds [games], loaded less than [CACHE_TTL_MS] before
    [now]. *)
Definition freshAt {G : Type} (now : Z) (c : Cache G) (games : list G) : Prop :=
  cachedGames c = Some games /\ now - cachedAt c < CACHE_TTL_MS.

(** The remote calls of one [/recommend] request: at most one store read,
    followed by at most one call of the model. *)
Definition loadThenAsk (trace : list Event) : Prop :=
  trace = [] \/
  trace = [StoreGet "rawgTopGames"] \/
  (exists request, trace = [LlmCreate request]) \/
  (exists request, trace = [StoreGet "rawgTopGames"; LlmCreate request]).

(** The only change that a request makes to the cache [c] at time [now]:
    none, or the replacement of a stale cache by the documents of the
    store, converted by [fromDoc] and stamped [now]. *)
Definition refilledOrSame {G : Type} (fromDoc : Doc -> G) (store : StoreReply)
  (now : Z) (c c' : Cache G) : Prop :=
  c' = c \/
  exists docs, store = Snapshot docs /\ staleAt now c /\
               c' = mkCache (Some (map fromDoc docs)) now.

(** The genre names of a stored game: [(g.genres || []).map((gen) => gen.name)]. *)
Definition genreNames (g : Doc) : list string :=
  map gen_name (orNil (doc_genres g)).

(** Some favorite is the game's name, up to case (a missing name counting
    as the empty one). *)
Definition namedBy {L : Lowering} (favorites : list string) (g : Doc) : Prop :=
  exists f, f ∈ favorites /\ toLowerCase f = Functions.nameKey g.

(** The game has a genre in common with a candidate that a favorite
    names. *)
Definition likedBy {L : Lowering} (candidates : list Doc) (favorites : list string) (g : Doc)
  : Prop :=
  exists fav x,
    fav ∈ candidates /\ namedBy favorites fav /\
    x ∈ genreNames fav /\ x ∈ genreNames g.

(** The set [favGenres] of lines 66-75 of functions/index.js. *)
Definition likedGenres {L : Lowering} (candidates : list Doc) (favorites : list string)
  : gset string :=
  list_to_set
    (flat_map (fun g => map gen_name (orNil (doc_genres g)))
       (List.filter
          (fun g => includes (map toLowerCase favorites) (Functions.nameKey g))
          candidates)).

(** The callback of line 79-81: the game has a genre in [liked]. *)
Definition sharesLiked (liked : gset string) (g : Doc) : bool :=
  existsb (fun gen => bool_decide (gen_name gen ∈ liked)) (orNil (doc_genres g)).

(* ===================================================================== *)
(** ** Sample data *)
(* ===================================================================== *)

(** The runtime of the sample data, which stays within Latin-1.  There
    the Unicode case mapping is: in UTF-8, the second byte of the letters
    [C3 80]-[C3 9E] (the capitals from A-grave to Thorn; [C3 97] is the
    multiplication sign) moves up by 32, and ASCII capitals as above. *)
Definition lower_latin1 (c : ascii) : ascii :=
  let n := nat_of_ascii c in
  if ((128 <=? n) && (n <=? 158) && negb (n =? 151))%nat
  then ascii_of_nat (n + 32) else c.

Fixpoint lowerLatin1 (s : string) : string :=
  match s with
  | EmptyString => EmptyString
  | String c rest =>
      if (nat_of_ascii c =? 195)%nat then
        match rest with
        | EmptyString => String c EmptyString
        | String d rest' => String c (String (lower_latin1 d) (lowerLatin1 rest'))
        end
      else String (lower_ascii c) (lowerLatin1 rest)
  end.

Definition latin1 : Lowering := {| lowerUnicode := lowerLatin1 |}.

Definition puzzle : Genre := mkGenre 7 "Puzzle" "puzzle".
Definition shooter : Genre := mkGenre 2 "Shooter" "shooter".

Definition portal2 : Doc :=
  mkDoc (Val 4200) (Val "Portal 2") (Val [puzzle]) (Val (461 # 100)) (Val "portal-2").
Definition doom : Doc :=
  mkDoc (Val 2454) (Val "DOOM") (Val [shooter]) (Val (438 # 100)) (Val "doom").
Definition tetris : Doc :=
  mkDoc (Val 1001) (Val "Tetris") (Val [puzzle]) Null Undefined.
(** A stored document without a [name]. *)
Definition untitled : Doc :=
  mkDoc (Val 77) Undefined (Val [puzzle]) (Val (3 # 1)) Undefined.

(** A process of functions/index.js that found no OpenAI key, with a
    caller the auth guard lets through. *)
Definition unconfigured : Functions.Env :=
  Functions.mkEnv false 1762000000000 (Snapshot [portal2; doom; tetris])
    (fun _ => Ok (mkDecodedToken (Val "yzhou677@gmail.com")))
    (fun _ => "[]")
    (fun _ => Functions.LlmFailure (mkError "Error" "Connection error.")).

(** [POST /recommend] with the body [{ favorites: [] }]. *)
Definition emptyFavorites : Request :=
  mkRequest (Some "Bearer token") [("favorites", JArr [])].

(** A stored puzzle game. *)
Definition puzzleGame (i : Z) (name : string) : Doc :=
  mkDoc (Val i) (Val name) (Val [puzzle]) (Val (4 # 1)) Undefined.

(** A collection with Portal 2, eight other puzzle games and three
    shooters. *)
Definition catalogue : list Doc :=
  [ portal2; doom; tetris;
    puzzleGame 11 "Baba Is You"; puzzleGame 12 "The Witness";
    puzzleGame 13 "Braid"; puzzleGame 14 "Limbo";
    mkDoc (Val 21) (Val "Quake") (Val [shooter]) (Val (41 # 10)) (Val "quake");
    puzzleGame 15 "Fez"; puzzleGame 16 "Inside"; puzzleGame 17 "World of Goo";
    mkDoc (Val 22) (Val "Halo") (Val [shooter]) (Val (42 # 10)) (Val "halo") ].

(** A candidate with an accented name, and a collection of it with
    Portal 2, seven other puzzle games and DOOM. *)
Definition pokemon : Doc :=
  mkDoc (Val 3003) (Val "POKÉMON") (Val [puzzle]) (Val (45 # 10)) (Val "pokemon").

Definition accented : list Doc :=
  [ portal2; pokemon; tetris;
    puzzleGame 11 "Baba Is You"; puzzleGame 12 "The Witness";
    puzzleGame 13 "Braid"; puzzleGame 14 "Limbo";
    puzzleGame 15 "Fez"; puzzleGame 16 "Inside"; doom ].

(** The pool of a request for ["Portal 2"] over [catalogue]. *)
Definition puzzlePool : list Doc :=
  [ tetris; puzzleGame 11 "Baba Is You"; puzzleGame 12 "The Witness";
    puzzleGame 13 "Braid"; puzzleGame 14 "Limbo"; puzzleGame 15 "Fez";
    puzzleGame 16 "Inside"; puzzleGame 17 "World of Goo" ].

(** A model output of eight items, one of them with the index 999. *)
Definition modelOutput : Functions.ModelOutput :=
  Functions.mkModelOutput "Puzzle games close to Portal 2."
    [ Functions.mkItem 0 "Pure puzzle."; Functions.mkItem 1 "Rule bending.";
      Functions.mkItem 2 "First-person puzzles."; Functions.mkItem 999 "Made up.";
      Functions.mkItem 3 "Time puzzles."; Functions.mkItem 4 "Moody.";
      Functions.mkItem 5 "Perspective."; Functions.mkItem 6 "Atmospheric." ].

(** A configured process of functions/index.js with an empty cache in front
    of a store that holds [catalogue]. *)
Definition configured : Functions.Env :=
  Functions.mkEnv true 1762000000000 (Snapshot catalogue)
    (fun _ => Ok (mkDecodedToken (Val "yzhou677@gmail.com")))
    (fun l => "[...]")
    (fun _ => Functions.LlmText (Ok modelOutput)).

(** [POST /recommend] with the body [{ favorites: ["Portal 2"] }]. *)
Definition portalFan : Request :=
  mkRequest (Some "Bearer token") [("favorites", JArr [JStr "Portal 2"])].

(** The process of index.js in front of the same store; the model cites
    DOOM, which the genre filter kept out of the prompt, and an unknown
    id. *)
Definition library : list Server.Game := map Server.fromDoc catalogue.

Definition citedItems : list Server.Item :=
  [ Server.mkItem 1001 "Pure puzzle."; Server.mkItem 2454 "A classic.";
    Server.mkItem 5 "Made up." ].

Definition standalone : Server.Env :=
  Server.mkEnv 1762000000000 (Snapshot catalogue)
    (fun l => "[...]")
    (fun _ => Server.LlmText (Ok citedItems)).

(** A model output on the wire that conforms to the schema for a pool of
    eight. *)
Definition wireItem (i : Z) (why : string) : Json :=
  JObj [("index", JNum (inject_Z i)); ("reason", JStr why)].

Definition wireOutput : Json :=
  JObj [("summary", JStr "Puzzle games close to Portal 2.");
        ("recommendations",
         JArr [ wireItem 0 "Pure puzzle."; wireItem 1 "Rule bending.";
                wireItem 2 "First-person puzzles."; wireItem 7 "Sticky.";
                wireItem 3 "Time puzzles."; wireItem 4 "Moody.";
                wireItem 5 "Perspective."; wireItem 6 "Atmospheric." ])].

(** A configured process of functions/index.js while the store is down. *)
Definition outage : Functions.Env :=
  Functions.mkEnv true 1762000300000 (StoreFailure (mkError "Error" "14 UNAVAILABLE"))
    (fun _ => Ok (mkDecodedToken (Val "yzhou677@gmail.com")))
    (fun l => "[...]")
    (fun _ => Functions.LlmText (Ok modelOutput)).

(** The same while the LLM service cannot be reached. *)
Definition mute : Functions.Env :=
  Functions.mkEnv true 1762000000000 (Snapshot catalogue)
    (fun _ => Ok (mkDecodedToken (Val "yzhou677@gmail.com")))
    (fun l => "[...]")
    (fun _ => Functions.LlmFailure (mkError "APIConnectionError" "Connection error.")).

(** The same for a caller whose token verifies to another email. *)
Definition stranger : Functions.Env :=
  Functions.mkEnv true 1762000000000 (Snapshot catalogue)
    (fun _ => Ok (mkDecodedToken (Val "someone@example.com")))
    (fun l => "[...]")
    (fun _ => Functions.LlmText (Ok modelOutput)).

(** The process of index.js while the store is down. *)
Definition standaloneOutage : Server.Env :=
  Server.mkEnv 1762000300000 (StoreFailure (mkError "Error" "14 UNAVAILABLE"))
    (fun l => "[...]")
    (fun _ => Server.LlmText (Ok citedItems)).

(** The process of index.js with a model whose text does not parse. *)
Definition standaloneGarbled : Server.Env :=
  Server.mkEnv 1762000000000 (Snapshot catalogue)
    (fun l => "[...]")
    (fun _ => Server.LlmText (Throw (mkError "SyntaxError" "Unexpected end of JSON input"))).

(** [POST /recommend] with the body [{ favorites: ["Portal 2", 7] }] and
    no [Authorization] header. *)
Definition mixedFavorites : Request :=
  mkRequest None [("favorites", JArr [JStr "Portal 2"; JNum (inject_Z 7)])].

(* ===================================================================== *)
(** ** The case mapping on ASCII *)
(* ===================================================================== *)

(** On plain ASCII every runtime lowers alike. *)
Lemma toLowerCase_ascii (L1 L2 : Lowering) (s : string) :
  isAscii s = true -> @toLowerCase L1 s = @toLowerCase L2 s.
Proof. unfold toLowerCase. now intros ->. Qed.

(* ===================================================================== *)
(** ** Whatever the runtime's case mapping *)
(* ===================================================================== *)

(** Everything from here to the end of the section is proved for an
    arbitrary case mapping [L]. *)
Section AnyLowering.
Context {L : Lowering}.

(* ===================================================================== *)
(** ** Facts about the list primitives *)
(* ===================================================================== *)

Section ListFacts.
Context {A : Type}.
Implicit Types (p : A -> bool) (l : list A).

Lemma filter_sublist p l : sublist (List.filter p l) l.
Proof.
  induction l as [|x l IH]; simpl.
  - constructor.
  - destruct (p x); [apply sublist_skip | apply sublist_cons]; exact IH.
Qed.

Lemma filter_length_bound p l : (length (List.filter p l) <= length l)%nat.
Proof. apply sublist_length, filter_sublist. Qed.

(** A filter that keeps nothing it could drop is the identity. *)
Lemma filter_none_true p l :
  (forall x, x ∈ l -> p x = false) -> List.filter p l = [].
Proof.
  induction l as [|x l IH]; intros H; simpl; [reflexivity|].
  rewrite (H x) by apply list_elem_of_here.
  apply IH. intros y Hy. apply H. now apply list_elem_of_further.
Qed.

Lemma at_index_in_range l (i : Z) :
  0 <= i < Z.of_nat (length l) -> exists x, at_index l i = Some x /\ l !! Z.to_nat i = Some x.
Proof.
  intros [Hlo Hhi]. unfold at_index.
  destruct (i <? 0) eqn:E; [apply Z.ltb_lt in E; lia|].
  destruct (lookup_lt_is_Some_2 l (Z.to_nat i)) as [x Hx]; [lia|].
  exists x. now rewrite Hx.
Qed.

Lemma at_index_out_of_range l (i : Z) :
  ~ (0 <= i < Z.of_nat (length l)) -> at_index l i = None.
Proof.
  intros H. unfold at_index.
  destruct (i <? 0) eqn:E; [reflexivity|].
  apply Z.ltb_ge in E. apply lookup_ge_None_2. lia.
Qed.
End ListFacts.

(* ===================================================================== *)
(** ** The genre filter and the pool selector *)
(* ===================================================================== *)

(** [filterByGenre] returns its input, or a non-empty filter of it. *)
Lemma functions_filterByGenre_cases candidates favorites :
  Functions.filterByGenre candidates favorites = candidates \/
  exists p, Functions.filterByGenre candidates favorites = List.filter p candidates
            /\ List.filter p candidates <> [].
Proof.
  unfold Functions.filterByGenre. cbv zeta.
  destruct (size _ =? 0)%nat; [now left|].
  match goal with |- context [List.filter ?p candidates] => set (keep := p) end.
  destruct (length (List.filter keep candidates) =? 0)%nat eqn:E; [now left|].
  right. exists keep. split; [reflexivity|].
  intros H. apply Nat.eqb_neq in E. apply E. exact (f_equal length H).
Qed.

Lemma server_filterByGenre_cases candidates favorites :
  Server.filterByGenre candidates favorites = candidates \/
  exists p, Server.filterByGenre candidates favorites = List.filter p candidates
            /\ List.filter p candidates <> [].
Proof.
  unfold Server.filterByGenre. cbv zeta.
  destruct (size _ =? 0)%nat; [now left|].
  match goal with |- context [List.filter ?p candidates] => set (keep := p) end.
  destruct (length (List.filter keep candidates) =? 0)%nat eqn:E; [now left|].
  right. exists keep. split; [reflexivity|].
  intros H. apply Nat.eqb_neq in E. apply E. exact (f_equal length H).
Qed.

Lemma functions_filterByGenre_sublist candidates favorites :
  sublist (Functions.filterByGenre candidates favorites) candidates.
Proof.
  destruct (functions_filterByGenre_cases candidates favorites) as [-> | (p & -> & _)].
  - reflexivity.
  - apply filter_sublist.
Qed.

(** C4. For every non-empty candidate list and every favorites list,
    [filterByGenre] returns a non-empty pool, in both deployments. *)
Theorem filterByGenre_never_empty :
  (forall (candidates : list Functions.Game) (favorites : list string),
      candidates <> [] -> Functions.filterByGenre candidates favorites <> []) /\
  (forall (candidates : list Server.Game) (favorites : list string),
      candidates <> [] -> Server.filterByGenre candidates favorites <> []).
Proof.
  split; intros candidates favorites Hne.
  - destruct (functions_filterByGenre_cases candidates favorites) as [-> | (p & -> & H)];
      assumption.
  - destruct (server_filterByGenre_cases candidates favorites) as [-> | (p & -> & H)];
      assumption.
Qed.

(** *** The identity law of the genre filter *)

Lemma includes_false (favorites : list string) (key : string) :
  (forall f, f ∈ favorites -> toLowerCase f <> key) ->
  includes (map toLowerCase favorites) key = false.
Proof.
  unfold includes. induction favorites as [|f fs IH]; intros H; simpl; [reflexivity|].
  rewrite IH.
  - rewrite orb_false_r. apply String.eqb_neq. intros E.
    apply (H f); [apply list_elem_of_here | now symmetry].
  - intros f' Hf'. apply H. now apply list_elem_of_further.
Qed.

(** C5 (as amended). If no favorite equals, case-insensitively, the name
    of a candidate, a candidate without a name counting as named by the
    empty string, then [filterByGenre] returns the candidate list unchanged,
    in both deployments. *)
Theorem filterByGenre_identity_without_match :
  (forall (candidates : list Functions.Game) (favorites : list string),
      noFavoriteKeyed (map doc_name candidates) favorites ->
      Functions.filterByGenre candidates favorites = candidates) /\
  (forall (candidates : list Server.Game) (favorites : list string),
      noFavoriteKeyed (map Server.game_name candidates) favorites ->
      Server.filterByGenre candidates favorites = candidates).
Proof.
  split; intros candidates favorites H.
  - unfold Functions.filterByGenre. cbv zeta.
    rewrite filter_none_true.
    + reflexivity.
    + intros g Hg. apply includes_false. intros f Hf.
      apply (H (doc_name g) f); [|exact Hf].
      apply list_elem_of_fmap. now exists g.
  - unfold Server.filterByGenre. cbv zeta.
    rewrite filter_none_true.
    + reflexivity.
    + intros g Hg. apply includes_false. intros f Hf.
      apply (H (Server.game_name g) f); [|exact Hf].
      apply list_elem_of_fmap. now exists g.
Qed.

(** *** The pool selector *)

(** The favorite [""] equals no candidate's name, yet selects the candidate
    that has no name, whose genre narrows the pool; so it is in every
    runtime, the data being plain ASCII. *)
Lemma nameless_candidate_is_matched :
  noFavoriteNamed (map doc_name [untitled; doom]) [""] /\
  Functions.filterByGenre [untitled; doom] [""] <> [untitled; doom].
Proof.
  split.
  - intros name n f Hname Hn Hf.
    apply list_elem_of_singleton in Hf as ->.
    repeat (apply elem_of_cons in Hname as [-> | Hname];
            [vm_compute in Hn; try discriminate Hn; injection Hn as <-;
             intros E; vm_compute in E; discriminate E|]).
    now apply not_elem_of_nil in Hname.
  - vm_compute. discriminate.
Qed.

Section PoolSelector.
Variables (candidates : list Functions.Game) (favorites : list string).

Let genreFiltered := Functions.filterByGenre candidates favorites.
Let excluded := Functions.excludeFavorites genreFiltered favorites.
Let pool := Functions.requestPool candidates favorites.

(** The three outcomes of lines 157-164. *)
Lemma selectPool_cases :
  (8 <= length excluded /\ pool = excluded)%nat \/
  (length excluded < 8 /\ 8 <= length genreFiltered /\ pool = genreFiltered)%nat \/
  (length excluded < 8 /\ length genreFiltered < 8 /\ pool = candidates)%nat.
Proof.
  subst pool. unfold Functions.requestPool, Functions.selectPool.
  fold genreFiltered. fold excluded. cbv zeta.
  destruct (length excluded <? 8)%nat eqn:E1.
  - apply Nat.ltb_lt in E1.
    destruct (length genreFiltered <? 8)%nat eqn:E2.
    + apply Nat.ltb_lt in E2. right. right. auto.
    + apply Nat.ltb_ge in E2. right. left. auto.
  - rewrite E1. apply Nat.ltb_ge in E1. left. auto.
Qed.

Lemma excluded_sublist : sublist excluded genreFiltered.
Proof. apply filter_sublist. Qed.

Lemma genreFiltered_sublist : sublist genreFiltered candidates.
Proof. apply functions_filterByGenre_sublist. Qed.

(** C2. When the full candidate set has at least 8 entries the pool has
    at least min(8, |candidates|) entries; when it has fewer than 8, the
    pool is the full candidate set. *)
Theorem selectPool_size_floor :
  (8 <= length candidates -> Nat.min 8 (length candidates) <= length pool)%nat /\
  (length candidates < 8 -> pool = candidates)%nat.
Proof.
  pose proof (sublist_length _ _ excluded_sublist) as Hex.
  pose proof (sublist_length _ _ genreFiltered_sublist) as Hgf.
  destruct selectPool_cases as [(H & ->) | [(_ & H & ->) | (_ & _ & ->)]];
    split; intros Hc; try reflexivity; try lia.
Qed.

(** C3. The stages form the chain excluded ⊆ genre-filtered ⊆ candidates
    (as sub-lists); the pool is one of them; when some stage has at least
    8 entries, the pool has too and lies within every stage that has;
    when none has, the pool is the full candidate set. *)
Theorem selectPool_narrowest_stage :
  sublist excluded genreFiltered /\ sublist genreFiltered candidates /\
  pool ∈ [excluded; genreFiltered; candidates] /\
  (forall stage, stage ∈ [excluded; genreFiltered; candidates] ->
                 (8 <= length stage)%nat ->
                 (8 <= length pool)%nat /\ sublist pool stage) /\
  ((forall stage, stage ∈ [excluded; genreFiltered; candidates] ->
                  (length stage < 8)%nat) ->
   pool = candidates).
Proof.
  pose proof excluded_sublist as Hex.
  pose proof genreFiltered_sublist as Hgf.
  pose proof (sublist_length _ _ Hex) as Lex.
  pose proof (sublist_length _ _ Hgf) as Lgf.
  assert (Hexc : sublist excluded candidates) by (etransitivity; eassumption).
  split; [exact Hex|]. split; [exact Hgf|].
  destruct selectPool_cases as [(H & ->) | [(H1 & H2 & ->) | (H1 & H2 & ->)]].
  - split; [set_solver|]. split.
    + intros stage Hs Hlen. split; [exact H|].
      rewrite !elem_of_cons in Hs.
      destruct Hs as [-> | [-> | [-> | Hs]]];
        [reflexivity | assumption | assumption | now apply not_elem_of_nil in Hs].
    + intros Hall. specialize (Hall excluded). 
      assert (length excluded < 8)%nat by (apply Hall; set_solver). lia.
  - split; [set_solver|]. split.
    + intros stage Hs Hlen. split; [exact H2|].
      rewrite !elem_of_cons in Hs.
      destruct Hs as [-> | [-> | [-> | Hs]]];
        [lia | reflexivity | assumption | now apply not_elem_of_nil in Hs].
    + intros Hall.
      assert (length genreFiltered < 8)%nat by (apply Hall; set_solver). lia.
  - split; [set_solver|]. split.
    + intros stage Hs Hlen.
      rewrite !elem_of_cons in Hs.
      destruct Hs as [-> | [-> | [-> | Hs]]];
        [lia | lia | split; [exact Hlen | reflexivity]
        | now apply not_elem_of_nil in Hs].
    + reflexivity.
Qed.
End PoolSelector.

(* ===================================================================== *)
(** ** The reconciler of functions/index.js *)
(* ===================================================================== *)

Lemma reconcile_in_range (pool : list Functions.Game) (r : Functions.Item) :
  0 <= Functions.index r < Z.of_nat (length pool) ->
  exists game, pool !! Z.to_nat (Functions.index r) = Some game /\
               Functions.reconcile pool r = Functions.enriched game (Functions.reason r).
Proof.
  intros H. destruct (at_index_in_range pool _ H) as (game & Hat & Hlook).
  exists game. split; [exact Hlook|].
  unfold Functions.reconcile. now rewrite Hat.
Qed.

Lemma reconcile_out_of_range (pool : list Functions.Game) (r : Functions.Item) :
  ~ (0 <= Functions.index r < Z.of_nat (length pool)) ->
  Functions.reconcile pool r = Functions.degraded (Functions.reason r).
Proof.
  intros H. unfold Functions.reconcile.
  now rewrite (at_index_out_of_range pool _ H).
Qed.

(* ===================================================================== *)
(** ** The candidate cache *)
(* ===================================================================== *)

Section CandidateCache.
Context {G : Type} (fromDoc : Doc -> G).

(** Both [loadCandidateGames] are [load], [fromDoc] being the identity in
    functions/index.js and [Server.fromDoc] in index.js. *)
Local Abbreviation load := (loadCandidateGamesWith fromDoc).

Implicit Types (c : Cache G) (store : StoreReply) (now : Z).

Lemma cacheHit_valid force now c (games : list G) :
  cacheHit force now c = Some games <->
  force = false /\ cachedGames c = Some games /\ now - cachedAt c < CACHE_TTL_MS.
Proof.
  unfold cacheHit. destruct force; simpl; [intuition discriminate|].
  destruct (cachedGames c) as [cached|]; [|intuition discriminate].
  destruct (now - cachedAt c <? CACHE_TTL_MS) eqn:E.
  - apply Z.ltb_lt in E. split; [intros [= <-]; auto | intros (_ & [= <-] & _); auto].
  - apply Z.ltb_ge in E. split; [discriminate | intros (_ & _ & H); lia].
Qed.

Lemma cacheHit_invalid force now c :
  cacheHit force now c = None <->
  force = true \/ cachedGames c = None \/ CACHE_TTL_MS <= now - cachedAt c.
Proof.
  unfold cacheHit. destruct force; simpl; [intuition auto|].
  destruct (cachedGames c) as [cached|]; [|intuition auto].
  destruct (now - cachedAt c <? CACHE_TTL_MS) eqn:E.
  - apply Z.ltb_lt in E. split; [discriminate | intros [H | [H | H]]; [discriminate.. | lia]].
  - apply Z.ltb_ge in E. intuition auto.
Qed.

Lemma load_hit store now force c games :
  cacheHit force now c = Some games ->
  load store now force c = (Ok games, c, []).
Proof. intros H. unfold loadCandidateGamesWith, bind, get. now rewrite H. Qed.

Lemma load_miss_success docs now force c :
  cacheHit force now c = None ->
  load (Snapshot docs) now force c =
    (Ok (map fromDoc docs), mkCache (Some (map fromDoc docs)) now,
     [StoreGet "rawgTopGames"]).
Proof. intros H. unfold loadCandidateGamesWith, bind, get. now rewrite H. Qed.

Lemma load_miss_failure e now force c :
  cacheHit force now c = None ->
  load (StoreFailure e) now force c = (Throw e, c, [StoreGet "rawgTopGames"]).
Proof. intros H. unfold loadCandidateGamesWith, bind, get. now rewrite H. Qed.

(** C6. The TTL is ten minutes (600000 ms).  A read without [force] of a cache that
    holds a value loaded less than the TTL ago returns that value, leaves
    the cache as it is and reads nothing from the store, so two such reads
    in a row return the same snapshot without a store read.  A forced
    read, a read of an empty cache and a read at or after expiry each
    issue exactly one store read. *)
Theorem cache_validity_and_fetches :
  CACHE_TTL_MS = 600000 /\
  (forall store now c games,
      cachedGames c = Some games -> now - cachedAt c < CACHE_TTL_MS ->
      load store now false c = (Ok games, c, [])) /\
  (forall store1 store2 now1 now2 c games,
      cachedGames c = Some games ->
      now1 - cachedAt c < CACHE_TTL_MS -> now2 - cachedAt c < CACHE_TTL_MS ->
      (first <- load store1 now1 false ;;
       second <- load store2 now2 false ;;
       ret (first, second))%eff c = (Ok (games, games), c, [])) /\
  (forall store now force c,
      force = true \/ cachedGames c = None \/ CACHE_TTL_MS <= now - cachedAt c ->
      snd (load store now force c) = [StoreGet "rawgTopGames"] /\
      storeReads (snd (load store now force c)) = 1%nat).
Proof.
  split; [reflexivity|].
  assert (Hfresh : forall store now c games,
             cachedGames c = Some games -> now - cachedAt c < CACHE_TTL_MS ->
             load store now false c = (Ok games, c, [])).
  { intros store now c games Hc Hnow. apply load_hit.
    apply cacheHit_valid. auto. }
  split; [exact Hfresh|]. split.
  - intros store1 store2 now1 now2 c games Hc H1 H2.
    unfold bind at 1. rewrite (Hfresh store1 now1 c games Hc H1).
    unfold bind at 1. rewrite (Hfresh store2 now2 c games Hc H2).
    reflexivity.
  - intros store now force c H. apply cacheHit_invalid in H.
    destruct store as [docs | e].
    + now rewrite (load_miss_success docs now force c H).
    + now rewrite (load_miss_failure e now force c H).
Qed.

(** A read that loads the snapshot is followed, within the TTL, by reads
    that return it without asking the store again. *)
Lemma load_then_read docs store now1 now2 c :
  cacheHit false now1 c = None ->
  now2 - now1 < CACHE_TTL_MS ->
  (first <- load (Snapshot docs) now1 false ;;
   second <- load store now2 false ;;
   ret (first, second))%eff c =
    (Ok (map fromDoc docs, map fromDoc docs),
     mkCache (Some (map fromDoc docs)) now1, [StoreGet "rawgTopGames"]).
Proof.
  intros Hmiss Hnow.
  unfold bind at 1. rewrite (load_miss_success docs now1 false c Hmiss).
  unfold bind at 1. rewrite (load_hit store now2 false _ (map fromDoc docs)).
  - reflexivity.
  - apply cacheHit_valid. auto.
Qed.

Lemma load_forced_failure e now c :
  load (StoreFailure e) now true c = (Throw e, c, [StoreGet "rawgTopGames"]).
Proof. apply load_miss_failure. apply cacheHit_invalid. auto. Qed.

Lemma load_forced_success docs now c :
  load (Snapshot docs) now true c =
    (Ok (map fromDoc docs), mkCache (Some (map fromDoc docs)) now,
     [StoreGet "rawgTopGames"]).
Proof. apply load_miss_success. apply cacheHit_invalid. auto. Qed.

(** C7. A forced reload whose store read fails throws and leaves the
    cached value and its timestamp as they were; one whose store read
    succeeds replaces both. *)
Theorem forced_reload_outcomes :
  (forall e now c,
      load (StoreFailure e) now true c = (Throw e, c, [StoreGet "rawgTopGames"])) /\
  (forall docs now c,
      load (Snapshot docs) now true c =
        (Ok (map fromDoc docs), mkCache (Some (map fromDoc docs)) now,
         [StoreGet "rawgTopGames"])).
Proof.
  split; intros.
  - apply load_forced_failure.
  - apply load_forced_success.
Qed.
End CandidateCache.

(* ===================================================================== *)
(** ** Validation of the request *)
(* ===================================================================== *)

(** The guard [!Array.isArray(favorites) || favorites.length === 0]. *)
Lemma favoritesRejected_branch {A : Type} (body : list (string * Json))
  (accept : Json -> list Json -> A) (reject : A) :
  favoritesRejected body ->
  match getProp "favorites" body with
  | Some (JArr (f :: fs)) => accept f fs
  | _ => reject
  end = reject.
Proof.
  intros [-> | [(v & -> & Hv) | ->]]; try reflexivity.
  destruct v; try reflexivity. now destruct (Hv items).
Qed.

(** The auth guard answers or passes on; it reads no store and calls no
    model, and leaves the cache alone. *)
Lemma authGuard_effects (env : Functions.Env) (req : Request) c :
  exists guard trace,
    Functions.authGuard env req c = (Ok guard, c, trace) /\
    storeReads trace = 0%nat /\ llmCalls trace = 0%nat.
Proof.
  unfold Functions.authGuard, tryCatch.
  destruct (matchBearer _) as [idToken|]; [|simpl; eauto].
  unfold bind, call.
  destruct (Functions.verifyIdToken env idToken) as [decoded | e]; simpl.
  - destruct (negb _); simpl; eauto.
  - eauto.
Qed.

(** C8 (as amended). A [POST /recommend] whose [favorites] is missing, not a
    list or empty is answered [400 {error: "favorites must be a non-empty
    array"}] by the handler of index.js, and by the handler of
    functions/index.js when the OpenAI client is configured; in both, and
    on the whole route of functions/index.js whatever the guard and the
    client, no store read and no LLM call is made and the cache is left as
    it was. *)
Theorem invalid_favorites_rejected_before_io :
  (forall (env : Server.Env) (req : Request) c,
      favoritesRejected (req_body req) ->
      Server.recommendHandler env req c = (Ok rejection, c, [])) /\
  (forall (env : Functions.Env) (req : Request) c,
      favoritesRejected (req_body req) ->
      Functions.client env = true ->
      Functions.recommendHandler env req c = (Ok rejection, c, [])) /\
  (forall (env : Functions.Env) (req : Request) c,
      favoritesRejected (req_body req) ->
      exists response trace,
        Functions.recommendRoute env req c = (Ok response, c, trace) /\
        storeReads trace = 0%nat /\ llmCalls trace = 0%nat).
Proof.
  assert (Hfn : forall (env : Functions.Env) (req : Request) c,
             favoritesRejected (req_body req) ->
             Functions.recommendHandler env req c =
               if Functions.client env then (Ok rejection, c, [])
               else (Ok (mkResponse 500
                           (ErrorBody "OpenAI is not configured on the server")),
                     c, [])).
  { intros env req c H. unfold Functions.recommendHandler, tryCatch.
    destruct (Functions.client env); simpl; [|reflexivity].
    now rewrite (favoritesRejected_branch _ _ _ H). }
  split; [|split].
  - intros env req c H. unfold Server.recommendHandler, tryCatch.
    now rewrite (favoritesRejected_branch _ _ _ H).
  - intros env req c H Hclient. now rewrite Hfn, Hclient.
  - intros env req c H. unfold Functions.recommendRoute, bind.
    destruct (authGuard_effects env req c) as (guard & trace & -> & Hs & Hl).
    destruct guard as [r | user].
    + exists r, trace. simpl. rewrite app_nil_r. auto.
    + rewrite (Hfn env req c H).
      destruct (Functions.client env); eexists _, _;
        (split; [reflexivity|]); rewrite app_nil_r; auto.
Qed.

(* ===================================================================== *)
(** ** The structured-output contract of functions/index.js *)
(* ===================================================================== *)

Lemma forallb_elem_of {A : Type} (f : A -> bool) (l : list A) :
  forallb f l = true <-> forall x, x ∈ l -> f x = true.
Proof.
  rewrite forallb_forall. split; intros H x Hx; apply H; now apply list_elem_of_In.
Qed.

Lemma existsb_elem_of {A : Type} (f : A -> bool) (l : list A) :
  existsb f l = true <-> exists x, x ∈ l /\ f x = true.
Proof.
  rewrite existsb_exists. split; intros (x & Hx & Hf); exists x; split; try assumption;
    now apply list_elem_of_In.
Qed.

Lemma hasKey_member (key : string) (members : list (string * Json)) :
  hasKey key members = true <-> exists x, (key, x) ∈ members.
Proof.
  unfold hasKey. rewrite existsb_elem_of. split.
  - intros ([k x] & Hin & Hk). simpl in Hk. apply String.eqb_eq in Hk as ->. eauto.
  - intros (x & Hin). exists (key, x). split; [exact Hin|]. apply String.eqb_refl.
Qed.

(** The integers among the JSON numbers. *)
Lemma isInteger_value (q : Q) :
  isInteger q = true <-> (q == inject_Z (integerValue q))%Q.
Proof.
  unfold isInteger, integerValue, Qeq. destruct q as [a b]. simpl.
  rewrite Z.eqb_eq, Z.mul_1_r. split; intros H.
  - rewrite Z.mul_comm. now apply Z_div_exact_full_2.
  - rewrite H at 1. apply Z_mod_mult.
Qed.

Lemma integerValue_unique (q : Q) (i : Z) :
  (q == inject_Z i)%Q -> integerValue q = i.
Proof.
  unfold integerValue, Qeq. destruct q as [a b]. simpl.
  rewrite Z.mul_1_r. intros ->. now apply Z.div_mul.
Qed.

Lemma validates_string (v : Json) :
  validates SString v = true <-> exists s, v = JStr s.
Proof.
  split; [|now intros (s & ->)].
  destruct v; simpl; try discriminate. eauto.
Qed.

Lemma validates_integer_enum (allowed : list Z) (v : Json) :
  validates (SInteger (Some allowed)) v = true <->
  exists (q : Q) (i : Z), v = JNum q /\ (q == inject_Z i)%Q /\ i ∈ allowed.
Proof.
  split.
  - destruct v; simpl; try discriminate.
    rewrite andb_true_iff, existsb_elem_of.
    intros (Hint & i & Hin & Hi). apply Z.eqb_eq in Hi as <-.
    exists q, (integerValue q). now rewrite <- isInteger_value.
  - intros (q & i & -> & Hq & Hin). simpl.
    rewrite andb_true_iff, existsb_elem_of. split.
    + apply isInteger_value. now rewrite (integerValue_unique q i Hq).
    + exists i. split; [exact Hin|]. apply Z.eqb_eq. now apply integerValue_unique.
Qed.

Lemma validates_array (lo hi : nat) (s : Schema) (v : Json) :
  validates (SArray (Some lo) (Some hi) s) v = true <->
  exists items, v = JArr items /\ (lo <= length items <= hi)%nat /\
                forall item, item ∈ items -> validates s item = true.
Proof.
  split.
  - destruct v; simpl; try discriminate.
    rewrite !andb_true_iff, forallb_elem_of, Nat.leb_le, Nat.leb_le.
    intros ((Hlo & Hhi) & Hall). exists items. auto.
  - intros (items & -> & (Hlo & Hhi) & Hall). simpl.
    rewrite !andb_true_iff, forallb_elem_of, Nat.leb_le, Nat.leb_le. auto.
Qed.

Lemma validates_object2 (k1 k2 : string) (s1 s2 : Schema) (v : Json) :
  k1 <> k2 ->
  validates (SObject [(k1, s1); (k2, s2)] [k1; k2] false) v = true <->
  exists members, v = JObj members /\
    (exists x, (k1, x) ∈ members) /\ (exists x, (k2, x) ∈ members) /\
    forall k x, (k, x) ∈ members ->
                (k = k1 /\ validates s1 x = true) \/ (k = k2 /\ validates s2 x = true).
Proof.
  intros Hne. split.
  - destruct v; simpl; try discriminate.
    rewrite !andb_true_iff, forallb_elem_of, !hasKey_member.
    intros ((H1 & H2 & _) & Hall). exists members. repeat split; try assumption.
    intros k x Hin. specialize (Hall (k, x) Hin). simpl in Hall.
    destruct (String.eqb_spec k1 k) as [<- | _]; [now left|].
    destruct (String.eqb_spec k2 k) as [<- | _]; [now right | discriminate].
  - intros (members & -> & H1 & H2 & Hall). simpl.
    rewrite !andb_true_iff, forallb_elem_of, !hasKey_member.
    repeat split; try assumption.
    intros [k x] Hin. simpl.
    destruct (Hall k x Hin) as [(-> & Hv) | (-> & Hv)].
    + now rewrite String.eqb_refl.
    + destruct (String.eqb_spec k1 k2) as [E | _]; [now destruct Hne|].
      now rewrite String.eqb_refl.
Qed.

Lemma validIndexes_domain (pool : list Functions.Game) (i : Z) :
  i ∈ Functions.validIndexes pool <-> indexDomain pool i.
Proof.
  unfold Functions.validIndexes, Functions.simplified, indexDomain.
  change (map Functions.s_index ?l) with (Functions.s_index <$> l).
  rewrite list_elem_of_lookup. split.
  - intros (k & Hk). rewrite list_lookup_fmap, list_lookup_imap in Hk.
    destruct (pool !! k) as [g|] eqn:Hg; simpl in Hk; [|discriminate].
    apply lookup_lt_Some in Hg. injection Hk as <-. lia.
  - intros [Hlo Hhi]. exists (Z.to_nat i).
    rewrite list_lookup_fmap, list_lookup_imap.
    destruct (lookup_lt_is_Some_2 pool (Z.to_nat i)) as [g ->]; [lia|].
    simpl. f_equal. lia.
Qed.

Lemma itemSchema_declared (pool : list Functions.Game) (v : Json) :
  validates (Functions.itemSchema pool) v = true <->
  DeclaredItem (indexDomain pool) v.
Proof.
  unfold Functions.itemSchema, DeclaredItem, hasMember.
  rewrite validates_object2 by discriminate.
  split; intros (members & -> & H1 & H2 & Hall); exists members;
    repeat split; try assumption; intros k x Hin;
    destruct (Hall k x Hin) as [(-> & Hv) | (-> & Hv)]; [left | right | left | right];
    split; try reflexivity.
  - apply validates_integer_enum in Hv as (q & i & -> & Hq & Hi).
    exists q, i. now rewrite <- validIndexes_domain.
  - now apply validates_string.
  - apply validates_integer_enum. destruct Hv as (q & i & -> & Hq & Hi).
    exists q, i. now rewrite validIndexes_domain.
  - now apply validates_string.
Qed.

Lemma outputSchema_declared (pool : list Functions.Game) (v : Json) :
  validates (Functions.outputSchema pool) v = true <->
  DeclaredOutput (indexDomain pool) v.
Proof.
  unfold Functions.outputSchema, DeclaredOutput, hasMember.
  rewrite validates_object2 by discriminate.
  split; intros (members & -> & H1 & H2 & Hall); exists members;
    repeat split; try assumption; intros k x Hin;
    destruct (Hall k x Hin) as [(-> & Hv) | (-> & Hv)]; [left | right | left | right];
    split; try reflexivity.
  - now apply validates_string.
  - apply validates_array in Hv as (items & -> & Hlen & Hitems).
    exists items. repeat split; [lia|].
    intros item Hitem. now apply itemSchema_declared, Hitems.
  - now apply validates_string.
  - apply validates_array. destruct Hv as (items & -> & Hlen & Hitems).
    exists items. repeat split; [lia..|].
    intros item Hitem. now apply itemSchema_declared, Hitems.
Qed.

(** *** Occurrences in the prompt *)


Lemma append_assoc (a b c : string) : ((a ++ b) ++ c = a ++ b ++ c)%string.
Proof.
  induction a as [|ch a IH]; [reflexivity|].
  change (String ch ((a ++ b) ++ c) = String ch (a ++ b ++ c))%string.
  now rewrite IH.
Qed.


Lemma occurs_app_l (needle a b : string) :
  occurs_in needle a -> occurs_in needle (a ++ b)%string.
Proof.
  intros (pre & post & ->). exists pre, (post ++ b)%string.
  now rewrite !append_assoc.
Qed.

Lemma occurs_app_r (needle a b : string) :
  occurs_in needle b -> occurs_in needle (a ++ b)%string.
Proof.
  intros (pre & post & ->). exists (a ++ pre)%string, post.
  now rewrite !append_assoc.
Qed.

Lemma occurs_join (needle sep line : string) (lines : list string) :
  line ∈ lines -> occurs_in needle line -> occurs_in needle (join sep lines).
Proof.
  intros Hin Hocc. induction lines as [|x rest IH]; [now apply not_elem_of_nil in Hin|].
  apply elem_of_cons in Hin as [<- | Hin].
  - destruct rest; [exact Hocc | now apply occurs_app_l].
  - specialize (IH Hin). destruct rest as [|y rest]; [now apply not_elem_of_nil in Hin|].
    change (join sep (x :: y :: rest)) with (x ++ sep ++ join sep (y :: rest))%string.
    now apply occurs_app_r, occurs_app_r.
Qed.


(** *** What the handler sends to the model *)


Lemma asStrings_strings (favorites : list string) :
  asStrings (map JStr favorites) = Ok favorites.
Proof. induction favorites as [|f fs IH]; simpl; [reflexivity | now rewrite IH]. Qed.



(* ===================================================================== *)
(** ** The handlers end to end *)
(* ===================================================================== *)

(** The response of functions/index.js when the store and the model
    answer: the reconciled output over the selected pool. *)
Lemma functions_recommend_success (env : Functions.Env) (req : Request) c
  (favorites : list string) (candidates : list Functions.Game) c1 t1
  (out : Functions.ModelOutput) :
  Functions.client env = true ->
  favorites <> [] ->
  getProp "favorites" (req_body req) = Some (JArr (map JStr favorites)) ->
  Functions.loadCandidateGames (Functions.store env) (Functions.now env) false c
    = (Ok candidates, c1, t1) ->
  let pool := Functions.requestPool candidates favorites in
  let request := Functions.llmRequest pool favorites
                   (Functions.stringify env (Functions.simplified pool)) in
  Functions.llm env request = Functions.LlmText (Ok out) ->
  Functions.recommendHandler env req c =
    (Ok (mkResponse 200
           (OkBody (Functions.mkPayload (Functions.out_summary out)
                      (Functions.finalResult pool (Functions.out_recommendations out))))),
     c1, t1 ++ [LlmCreate request]).
Proof.
  intros Hclient Hne Hfav Hload pool request Hllm.
  unfold Functions.recommendHandler, tryCatch.
  rewrite Hclient, Hfav. cbv beta match delta [negb].
  destruct favorites as [|f fs]; [now destruct Hne|].
  change (map JStr (f :: fs)) with (JStr f :: map JStr fs).
  cbv beta match.
  change (JStr f :: map JStr fs) with (map JStr (f :: fs)).
  generalize dependent (f :: fs). clear f fs. intros favorites _ _ pool request Hllm.
  unfold bind at 1. rewrite Hload.
  unfold bind at 1. rewrite asStrings_strings. unfold lift at 1, ret at 1.
  cbv beta match zeta.
  subst request pool. unfold Functions.requestPool in *.
  unfold bind at 1, call at 1. rewrite Hllm. simpl.
  now rewrite ?app_nil_r.
Qed.

(** The response of index.js when the store and the model answer: the
    reconciled output over the full candidate list. *)
Lemma server_recommend_success (env : Server.Env) (req : Request) c
  (favorites : list string) (candidates : list Server.Game) c1 t1
  (items : list Server.Item) :
  favorites <> [] ->
  getProp "favorites" (req_body req) = Some (JArr (map JStr favorites)) ->
  Server.loadCandidateGames (Server.store env) (Server.now env) false c
    = (Ok candidates, c1, t1) ->
  let shown := Server.filterByGenre candidates favorites in
  let request := Server.llmRequest favorites
                   (Server.stringify env (Server.simplified shown)) in
  Server.llm env request = Server.LlmText (Ok items) ->
  Server.recommendHandler env req c =
    (Ok (mkResponse 200 (OkBody (Server.finalResult candidates items))),
     c1, t1 ++ [LlmCreate request]).
Proof.
  intros Hne Hfav Hload shown request Hllm.
  unfold Server.recommendHandler, tryCatch.
  rewrite Hfav.
  destruct favorites as [|f fs]; [now destruct Hne|].
  change (map JStr (f :: fs)) with (JStr f :: map JStr fs).
  cbv beta match.
  change (JStr f :: map JStr fs) with (map JStr (f :: fs)).
  generalize dependent (f :: fs). clear f fs. intros favorites _ _ shown request Hllm.
  unfold bind at 1. rewrite Hload.
  unfold bind at 1. rewrite asStrings_strings. unfold lift at 1, ret at 1.
  cbv beta match zeta.
  subst request shown.
  unfold bind at 1, call at 1. rewrite Hllm. simpl.
  now rewrite ?app_nil_r.
Qed.

(** C1. The reconciler yields one record per item of the model output, in
    the model's order.  The record of an item whose index lies in
    [0, |pool|) carries the five properties of [pool[index]] and the item's
    reason; the record of any other item has [null] for [id] and [name], no
    other game property, and the item's reason.  Whenever the model's text
    parses, the handler answers 200 with these records: reconciliation
    throws nothing. *)
Theorem reconcile_one_record_per_item :
  (forall (pool : list Functions.Game) (items : list Functions.Item),
      length (Functions.finalResult pool items) = length items /\
      forall (k : nat) (r : Functions.Item),
        items !! k = Some r ->
        exists out,
          Functions.finalResult pool items !! k = Some out /\
          Functions.rec_reason out = Functions.reason r /\
          (0 <= Functions.index r < Z.of_nat (length pool) ->
           exists game,
             pool !! Z.to_nat (Functions.index r) = Some game /\
             Functions.rec_id out = doc_id game /\
             Functions.rec_name out = doc_name game /\
             Functions.rec_genres out = doc_genres game /\
             Functions.rec_rating out = doc_rating game /\
             Functions.rec_slug out = doc_slug game) /\
          (~ (0 <= Functions.index r < Z.of_nat (length pool)) ->
           Functions.rec_id out = Null /\
           Functions.rec_name out = Null /\
           Functions.rec_genres out = Undefined /\
           Functions.rec_rating out = Undefined /\
           Functions.rec_slug out = Undefined)) /\
  (forall (env : Functions.Env) (req : Request) c
          (favorites : list string) (candidates : list Functions.Game) c1 t1
          (out : Functions.ModelOutput),
      Functions.client env = true ->
      favorites <> [] ->
      getProp "favorites" (req_body req) = Some (JArr (map JStr favorites)) ->
      Functions.loadCandidateGames (Functions.store env) (Functions.now env) false c
        = (Ok candidates, c1, t1) ->
      let pool := Functions.requestPool candidates favorites in
      let request := Functions.llmRequest pool favorites
                       (Functions.stringify env (Functions.simplified pool)) in
      Functions.llm env request = Functions.LlmText (Ok out) ->
      exists records,
        Functions.recommendHandler env req c =
          (Ok (mkResponse 200
                 (OkBody (Functions.mkPayload (Functions.out_summary out) records))),
           c1, t1 ++ [LlmCreate request]) /\
        records = Functions.finalResult pool (Functions.out_recommendations out) /\
        length records = length (Functions.out_recommendations out)).
Proof.
  split.
  - intros pool items.
    unfold Functions.finalResult. split; [apply length_map|].
    intros k r Hk. exists (Functions.reconcile pool r).
    split; [change (map (Functions.reconcile pool) items) with
              (Functions.reconcile pool <$> items);
            now rewrite list_lookup_fmap, Hk|].
    split.
    + unfold Functions.reconcile. now destruct (at_index pool _).
    + split; intros H.
      * destruct (reconcile_in_range pool r H) as (game & Hg & ->).
        exists game. now repeat split.
      * rewrite (reconcile_out_of_range pool r H). now repeat split.
  - intros env req c favorites candidates c1 t1 out Hclient Hne Hfav Hload pool request Hllm.
    exists (Functions.finalResult pool (Functions.out_recommendations out)).
    split; [|split; [reflexivity | apply length_map]].
    now apply functions_recommend_success.
Qed.

(* ===================================================================== *)
(** ** The reconciler of index.js *)
(* ===================================================================== *)

Section FindFirst.
Context {A : Type} (p : A -> bool).

Lemma find_first_Some (l : list A) (x : A) :
  find_first p l = Some x ->
  exists before after,
    l = before ++ x :: after /\ p x = true /\ forall y, y ∈ before -> p y = false.
Proof.
  induction l as [|a l IH]; simpl; [discriminate|].
  destruct (p a) eqn:Ha.
  - intros [= <-]. exists [], l. repeat split; [assumption|].
    intros y Hy. now apply not_elem_of_nil in Hy.
  - intros H. destruct (IH H) as (before & after & -> & Hx & Hbefore).
    exists (a :: before), after. repeat split; [assumption|].
    intros y Hy. apply elem_of_cons in Hy as [-> | Hy]; auto.
Qed.

Lemma find_first_None (l : list A) :
  find_first p l = None <-> forall y, y ∈ l -> p y = false.
Proof.
  induction l as [|a l IH]; simpl.
  - split; [intros _ y Hy; now apply not_elem_of_nil in Hy | reflexivity].
  - destruct (p a) eqn:Ha.
    + split; [discriminate|]. intros H.
      rewrite (H a) in Ha by apply list_elem_of_here. discriminate.
    + rewrite IH. split.
      * intros H y Hy. apply elem_of_cons in Hy as [-> | Hy]; auto.
      * intros H y Hy. apply H. now apply list_elem_of_further.
Qed.
End FindFirst.

Lemma hasId_true (wanted : Z) (g : Server.Game) :
  Server.hasId wanted g = true <-> Server.game_id g = Val wanted.
Proof.
  unfold Server.hasId. destruct (Server.game_id g) as [| |i].
  - split; discriminate.
  - split; discriminate.
  - rewrite Z.eqb_eq. split; [now intros -> | now intros [= ->]].
Qed.

Lemma hasId_false (wanted : Z) (g : Server.Game) :
  Server.hasId wanted g = false <-> Server.game_id g <> Val wanted.
Proof.
  rewrite <- hasId_true. destruct (Server.hasId wanted g); split; congruence.
Qed.

(** C10. In index.js the handler reconciles the model's items against the
    full candidate list, whatever the genre filter showed the model.  An
    item whose id is the id of some candidate yields the record of the
    first such candidate plus the reason; an item whose id is the id of no
    candidate yields [{id, name: null, reason}].  A candidate that the
    filter kept out of the prompt is resolved all the same. *)
Theorem reconcile_by_id_over_all_candidates :
  (forall (env : Server.Env) (req : Request) c
          (favorites : list string) (candidates : list Server.Game) c1 t1
          (items : list Server.Item),
      favorites <> [] ->
      getProp "favorites" (req_body req) = Some (JArr (map JStr favorites)) ->
      Server.loadCandidateGames (Server.store env) (Server.now env) false c
        = (Ok candidates, c1, t1) ->
      let shown := Server.filterByGenre candidates favorites in
      let request := Server.llmRequest favorites
                       (Server.stringify env (Server.simplified shown)) in
      Server.llm env request = Server.LlmText (Ok items) ->
      Server.recommendHandler env req c =
        (Ok (mkResponse 200 (OkBody (map (Server.reconcile candidates) items))),
         c1, t1 ++ [LlmCreate request])) /\
  (forall (candidates : list Server.Game) (r : Server.Item),
      (exists g, g ∈ candidates /\ Server.game_id g = Val (Server.id r)) ->
      exists before game after,
        candidates = before ++ game :: after /\
        (forall g, g ∈ before -> Server.game_id g <> Val (Server.id r)) /\
        Server.game_id game = Val (Server.id r) /\
        Server.reconcile candidates r = Server.enriched game (Server.reason r)) /\
  (forall (candidates : list Server.Game) (r : Server.Item),
      (forall g, g ∈ candidates -> Server.game_id g <> Val (Server.id r)) ->
      Server.reconcile candidates r = Server.degraded (Server.id r) (Server.reason r)) /\
  (exists game,
      game ∈ library /\
      (game ∉ Server.filterByGenre library ["Portal 2"]) /\
      Server.reconcile library (Server.mkItem 2454 "A classic.")
        = Server.enriched game "A classic.").
Proof.
  split; [exact server_recommend_success|]. split; [|split].
  - intros candidates r (g & Hg & Hid).
    unfold Server.reconcile.
    destruct (find_first (Server.hasId (Server.id r)) candidates) as [game|] eqn:Hfind.
    + destruct (find_first_Some _ _ _ Hfind) as (before & after & -> & Hgame & Hbefore).
      exists before, game, after. repeat split.
      * intros y Hy. now apply hasId_false, Hbefore.
      * now apply hasId_true.
    + rewrite find_first_None in Hfind. apply Hfind in Hg.
      apply hasId_false in Hg. now destruct Hg.
  - intros candidates r H. unfold Server.reconcile.
    replace (find_first (Server.hasId (Server.id r)) candidates) with (@None Server.Game);
      [reflexivity|].
    symmetry. apply find_first_None. intros y Hy. now apply hasId_false, H.
  - exists (Server.fromDoc doom). split; [|split].
    + apply list_elem_of_In. vm_compute. tauto.
    + intros H. apply list_elem_of_In in H. vm_compute in H.
      repeat (destruct H as [H | H]; [discriminate H|]). exact H.
    + vm_compute. reflexivity.
Qed.

(* ===================================================================== *)
(** ** The reload route and the preload *)
(* ===================================================================== *)

(** X24. [POST /admin/reload-candidates] answers 500 and keeps the cache when
    the store fails, and answers [{ ok: true }] over the fresh snapshot
    when it does not, in both deployments. *)
Lemma reloadRoute_outcomes :
  (forall (env : Functions.Env) c e,
      Functions.store env = StoreFailure e ->
      Functions.reloadRoute env c
        = (Ok (mkResponse 500 (ErrorBody "Failed to reload candidates")), c,
           [StoreGet "rawgTopGames"])) /\
  (forall (env : Functions.Env) c docs,
      Functions.store env = Snapshot docs ->
      Functions.reloadRoute env c
        = (Ok (mkResponse 200 (OkBody true)),
           mkCache (Some docs) (Functions.now env), [StoreGet "rawgTopGames"])) /\
  (forall (env : Server.Env) c e,
      Server.store env = StoreFailure e ->
      Server.reloadRoute env c
        = (Ok (mkResponse 500 (ErrorBody "Failed to reload candidates")), c,
           [StoreGet "rawgTopGames"])) /\
  (forall (env : Server.Env) c docs,
      Server.store env = Snapshot docs ->
      Server.reloadRoute env c
        = (Ok (mkResponse 200 (OkBody true)),
           mkCache (Some (map Server.fromDoc docs)) (Server.now env),
           [StoreGet "rawgTopGames"])).
Proof.
  repeat split; intros env c x Hstore;
    unfold Functions.reloadRoute, Server.reloadRoute, tryCatch, bind,
      Functions.loadCandidateGames, Server.loadCandidateGames;
    rewrite Hstore.
  - now rewrite load_forced_failure.
  - rewrite load_forced_success. simpl. now rewrite map_id.
  - now rewrite load_forced_failure.
  - now rewrite load_forced_success.
Qed.

(** The preload of index.js swallows a store failure and leaves the cache
    empty. *)
Lemma preload_failure_ignored (e : Error) (now : Z) :
  Server.preload (StoreFailure e) now initialCache
    = (Ok tt, initialCache, [StoreGet "rawgTopGames"]).
Proof. reflexivity. Qed.

(** The schema of index.js is another contract: no summary, no bound on
    the number of items, items referenced by a numeric [id]. *)
Example server_schema_accepts_one_item :
  validates Server.outputSchema
    (JObj [("recommendations",
            JArr [JObj [("id", JNum (inject_Z 2454)); ("reason", JStr "A classic.")]])])
    = true /\
  validates Server.outputSchema wireOutput = false.
Proof. split; reflexivity. Qed.

(* ===================================================================== *)
(** ** The auth guard of functions/index.js *)
(* ===================================================================== *)

Lemma prefix_append (p h : string) :
  String.prefix p h = true <-> exists rest, h = (p ++ rest)%string.
Proof.
  revert h. induction p as [|a p IH]; intros h.
  - split; [intros _; now exists h | intros _; now destruct h].
  - destruct h as [|b h]; simpl.
    + split; [discriminate | intros (rest & H); discriminate H].
    + destruct (ascii_dec a b) as [<- | Hne].
      * rewrite IH. split; intros (rest & H); exists rest.
        -- now rewrite H.
        -- now injection H.
      * split; [discriminate|]. intros (rest & H). injection H as H _.
        now destruct Hne.
Qed.

Lemma substring_all (s : string) : String.substring 0 (String.length s) s = s.
Proof. induction s as [|a s IH]; simpl; [reflexivity | now rewrite IH]. Qed.

Lemma substring_after (p rest : string) :
  String.substring (String.length p)
    (String.length (p ++ rest)%string - String.length p) (p ++ rest)%string = rest.
Proof.
  induction p as [|a p IH].
  - change ("" ++ rest)%string with rest. simpl. rewrite Nat.sub_0_r. apply substring_all.
  - change (String a p ++ rest)%string with (String a (p ++ rest)%string).
    simpl. exact IH.
Qed.

(** The header matches [/^Bearer (.+)$/] with capture [token] exactly when
    it is [Bearer ] followed by [token], a non-empty text without a line
    break. *)
Lemma matchBearer_iff (header token : string) :
  matchBearer header = Some token <->
  header = ("Bearer " ++ token)%string /\ token <> "" /\ noLineBreak token = true.
Proof.
  unfold matchBearer. split.
  - destruct (String.prefix "Bearer " header) eqn:Hp; [|discriminate].
    apply prefix_append in Hp as (rest & ->).
    change 7%nat with (String.length "Bearer "). rewrite substring_after.
    destruct (String.eqb_spec rest "") as [-> | Hne]; simpl; [discriminate|].
    destruct (noLineBreak rest) eqn:Hnl; [|discriminate].
    intros [= <-]. auto.
  - intros (-> & Hne & Hnl).
    replace (String.prefix "Bearer " ("Bearer " ++ token)%string) with true
      by (symmetry; apply prefix_append; now exists token).
    change 7%nat with (String.length "Bearer "). rewrite substring_after, Hnl.
    now destruct (String.eqb_spec token "").
Qed.

(* ===================================================================== *)
(** ** Every path through the handlers *)
(* ===================================================================== *)

(** What the handler of functions/index.js does once the client exists and
    [favorites] is a non-empty array: the load, the typing of the
    favorites, the call of the model and the parse, each of which may end
    the request with a 500. *)
Lemma functions_handler_run (env : Functions.Env) (req : Request) c f fs :
  Functions.client env = true ->
  getProp "favorites" (req_body req) = Some (JArr (f :: fs)) ->
  Functions.recommendHandler env req c =
    match Functions.loadCandidateGames (Functions.store env) (Functions.now env) false c with
    | (Throw e, c1, t1) =>
        (Ok (mkResponse 500 (ErrorBody (messageOrToString e))), c1, t1)
    | (Ok candidates, c1, t1) =>
        match asStrings (f :: fs) with
        | Throw e => (Ok (mkResponse 500 (ErrorBody (messageOrToString e))), c1, t1)
        | Ok favorites =>
            let pool := Functions.requestPool candidates favorites in
            let request := Functions.llmRequest pool favorites
                             (Functions.stringify env (Functions.simplified pool)) in
            match Functions.llm env request with
            | Functions.LlmFailure e | Functions.LlmText (Throw e) =>
                (Ok (mkResponse 500 (ErrorBody (messageOrToString e))), c1,
                 t1 ++ [LlmCreate request])
            | Functions.LlmText (Ok out) =>
                (Ok (mkResponse 200
                       (OkBody (Functions.mkPayload (Functions.out_summary out)
                                  (Functions.finalResult pool
                                     (Functions.out_recommendations out))))),
                 c1, t1 ++ [LlmCreate request])
            end
        end
    end.
Proof.
  intros Hclient Hfav.
  unfold Functions.recommendHandler, tryCatch.
  rewrite Hclient, Hfav. cbv beta match delta [negb].
  generalize (f :: fs). intros favs.
  unfold bind at 1.
  destruct (Functions.loadCandidateGames _ _ _ c) as [[[candidates | e] c1] t1].
  - unfold bind at 1, lift at 1.
    destruct (asStrings favs) as [favorites | e].
    + unfold ret at 1. cbv beta match zeta. unfold Functions.requestPool.
      unfold bind at 1, call at 1.
      destruct (Functions.llm env _) as [e | [out | e]]; simpl;
        now rewrite ?app_nil_r.
    + unfold throw. simpl. now rewrite ?app_nil_r.
  - simpl. now rewrite ?app_nil_r.
Qed.

Lemma functions_handler_unconfigured (env : Functions.Env) (req : Request) c :
  Functions.client env = false ->
  Functions.recommendHandler env req c =
    (Ok (mkResponse 500 (ErrorBody "OpenAI is not configured on the server")), c, []).
Proof.
  intros H. unfold Functions.recommendHandler, tryCatch. now rewrite H.
Qed.

(** The other bodies: [favorites] missing, not an array, or empty. *)
Lemma favorites_array_or_rejected (body : list (string * Json)) :
  (exists f fs, getProp "favorites" body = Some (JArr (f :: fs))) \/
  favoritesRejected body.
Proof.
  unfold favoritesRejected.
  destruct (getProp "favorites" body) as [v|]; [|now right; left].
  destruct v as [| | | |[|f fs]|]; try (right; right; left; eexists; split;
    [reflexivity | discriminate]).
  - right. right. now right.
  - left. eauto.
Qed.

Lemma functions_handler_rejected (env : Functions.Env) (req : Request) c :
  Functions.client env = true ->
  favoritesRejected (req_body req) ->
  Functions.recommendHandler env req c = (Ok rejection, c, []).
Proof.
  intros Hclient H. unfold Functions.recommendHandler, tryCatch.
  rewrite Hclient. cbv beta match delta [negb].
  now rewrite (favoritesRejected_branch _ _ _ H).
Qed.

(** The same for index.js, whose 500 never carries the error. *)
Lemma server_handler_run (env : Server.Env) (req : Request) c f fs :
  getProp "favorites" (req_body req) = Some (JArr (f :: fs)) ->
  Server.recommendHandler env req c =
    let failed : Response (list Server.Recommendation) :=
      mkResponse 500 (ErrorBody "Internal LLM or Firestore error") in
    match Server.loadCandidateGames (Server.store env) (Server.now env) false c with
    | (Throw e, c1, t1) => (Ok failed, c1, t1)
    | (Ok candidates, c1, t1) =>
        match asStrings (f :: fs) with
        | Throw e => (Ok failed, c1, t1)
        | Ok favorites =>
            let shown := Server.filterByGenre candidates favorites in
            let request := Server.llmRequest favorites
                             (Server.stringify env (Server.simplified shown)) in
            match Server.llm env request with
            | Server.LlmFailure e | Server.LlmText (Throw e) =>
                (Ok failed, c1, t1 ++ [LlmCreate request])
            | Server.LlmText (Ok items) =>
                (Ok (mkResponse 200 (OkBody (Server.finalResult candidates items))),
                 c1, t1 ++ [LlmCreate request])
            end
        end
    end.
Proof.
  intros Hfav.
  unfold Server.recommendHandler, tryCatch.
  rewrite Hfav. cbv beta match.
  generalize (f :: fs). intros favs.
  unfold bind at 1.
  destruct (Server.loadCandidateGames _ _ _ c) as [[[candidates | e] c1] t1].
  - unfold bind at 1, lift at 1.
    destruct (asStrings favs) as [favorites | e].
    + unfold ret at 1. cbv beta match zeta.
      unfold bind at 1, call at 1.
      destruct (Server.llm env _) as [e | [items | e]]; simpl;
        now rewrite ?app_nil_r.
    + unfold throw. simpl. now rewrite ?app_nil_r.
  - simpl. now rewrite ?app_nil_r.
Qed.

Lemma server_handler_rejected (env : Server.Env) (req : Request) c :
  favoritesRejected (req_body req) ->
  Server.recommendHandler env req c = (Ok rejection, c, []).
Proof.
  intros H. unfold Server.recommendHandler, tryCatch.
  now rewrite (favoritesRejected_branch _ _ _ H).
Qed.

Lemma load_cases {G : Type} (fromDoc : Doc -> G) store now force (c : Cache G) :
  (exists games,
      cacheHit force now c = Some games /\
      loadCandidateGamesWith fromDoc store now force c = (Ok games, c, [])) \/
  (exists docs,
      cacheHit force now c = None /\ store = Snapshot docs /\
      loadCandidateGamesWith fromDoc store now force c =
        (Ok (map fromDoc docs), mkCache (Some (map fromDoc docs)) now,
         [StoreGet "rawgTopGames"])) \/
  (exists e,
      cacheHit force now c = None /\ store = StoreFailure e /\
      loadCandidateGamesWith fromDoc store now force c =
        (Throw e, c, [StoreGet "rawgTopGames"])).
Proof.
  destruct (cacheHit force now c) as [games|] eqn:Hhit.
  - left. exists games. split; [reflexivity|]. now apply load_hit.
  - right. destruct store as [docs | e]; [left; exists docs | right; exists e];
      (split; [reflexivity|]); (split; [reflexivity|]).
    + now apply load_miss_success.
    + now apply load_miss_failure.
Qed.

Lemma staleAt_miss {G : Type} (now : Z) (c : Cache G) :
  staleAt now c -> cacheHit false now c = None.
Proof. intros H. apply cacheHit_invalid. now right. Qed.

Lemma freshAt_hit {G : Type} (now : Z) (c : Cache G) (games : list G) :
  freshAt now c games -> cacheHit false now c = Some games.
Proof. intros [H1 H2]. apply cacheHit_valid. auto. Qed.

(** X1. A failing store fails the request: when the cache is empty or
    expired and the store read throws, both handlers answer 500 after that
    one read, without calling the model and without touching the cache; an
    expired value is not served in its place.  functions/index.js reports
    the error's message, index.js a fixed text. *)
Theorem store_failure_is_500 :
  (forall (env : Functions.Env) (req : Request) c f fs e,
      Functions.client env = true ->
      getProp "favorites" (req_body req) = Some (JArr (f :: fs)) ->
      staleAt (Functions.now env) c ->
      Functions.store env = StoreFailure e ->
      Functions.recommendHandler env req c =
        (Ok (mkResponse 500 (ErrorBody (messageOrToString e))), c,
         [StoreGet "rawgTopGames"])) /\
  (forall (env : Server.Env) (req : Request) c f fs e,
      getProp "favorites" (req_body req) = Some (JArr (f :: fs)) ->
      staleAt (Server.now env) c ->
      Server.store env = StoreFailure e ->
      Server.recommendHandler env req c =
        (Ok (mkResponse 500 (ErrorBody "Internal LLM or Firestore error")), c,
         [StoreGet "rawgTopGames"])).
Proof.
  split.
  - intros env req c f fs e Hclient Hfav Hstale Hstore.
    rewrite (functions_handler_run env req c f fs Hclient Hfav).
    unfold Functions.loadCandidateGames. rewrite Hstore.
    now rewrite (load_miss_failure _ e _ false c (staleAt_miss _ c Hstale)).
  - intros env req c f fs e Hfav Hstale Hstore.
    rewrite (server_handler_run env req c f fs Hfav).
    unfold Server.loadCandidateGames. rewrite Hstore.
    now rewrite (load_miss_failure _ e _ false c (staleAt_miss _ c Hstale)).
Qed.

Lemma functions_handler_fresh (env : Functions.Env) (req : Request) c games :
  freshAt (Functions.now env) c games ->
  exists response trace,
    Functions.recommendHandler env req c = (Ok response, c, trace) /\
    storeReads trace = 0%nat.
Proof.
  intros Hfresh.
  destruct (Functions.client env) eqn:Hclient;
    [|rewrite (functions_handler_unconfigured env req c Hclient); eauto].
  destruct (favorites_array_or_rejected (req_body req)) as [(f & fs & Hfav) | Hrej];
    [|rewrite (functions_handler_rejected env req c Hclient Hrej); eauto].
  rewrite (functions_handler_run env req c f fs Hclient Hfav).
  unfold Functions.loadCandidateGames.
  rewrite (load_hit _ _ _ false c games (freshAt_hit _ c games Hfresh)).
  destruct (asStrings (f :: fs)) as [favorites | e]; [|eauto].
  cbv zeta. destruct (Functions.llm env _) as [e | [out | e]]; eauto.
Qed.

Lemma server_handler_fresh (env : Server.Env) (req : Request) c games :
  freshAt (Server.now env) c games ->
  exists response trace,
    Server.recommendHandler env req c = (Ok response, c, trace) /\
    storeReads trace = 0%nat.
Proof.
  intros Hfresh.
  destruct (favorites_array_or_rejected (req_body req)) as [(f & fs & Hfav) | Hrej];
    [|rewrite (server_handler_rejected env req c Hrej); eauto].
  rewrite (server_handler_run env req c f fs Hfav).
  unfold Server.loadCandidateGames.
  rewrite (load_hit _ _ _ false c games (freshAt_hit _ c games Hfresh)).
  destruct (asStrings (f :: fs)) as [favorites | e]; [|cbv zeta; eauto].
  cbv zeta. destruct (Server.llm env _) as [e | [items | e]]; eauto.
Qed.

(** X2. A fresh cache answers for the store: when the cache holds a value
    younger than the TTL, neither handler reads the store or changes the
    cache, so the request is served even while the store is down. *)
Theorem fresh_cache_spares_the_store :
  (forall (env : Functions.Env) (req : Request) c games,
      freshAt (Functions.now env) c games ->
      exists response trace,
        Functions.recommendHandler env req c = (Ok response, c, trace) /\
        storeReads trace = 0%nat) /\
  (forall (env : Server.Env) (req : Request) c games,
      freshAt (Server.now env) c games ->
      exists response trace,
        Server.recommendHandler env req c = (Ok response, c, trace) /\
        storeReads trace = 0%nat).
Proof. split; [exact functions_handler_fresh | exact server_handler_fresh]. Qed.

Lemma matchBearer_none (req : Request) :
  (forall idToken, ~ bearerOf req idToken) ->
  matchBearer (match authorization req with Some header => header | None => "" end)
    = None.
Proof.
  intros H. destruct (matchBearer _) as [idToken|] eqn:Hm; [|reflexivity].
  apply matchBearer_iff in Hm as (Hh & Hne & Hnl).
  destruct (H idToken). unfold bearerOf.
  destruct (authorization req) as [header|]; [now subst | discriminate Hh].
Qed.

Lemma matchBearer_some (req : Request) (idToken : string) :
  bearerOf req idToken ->
  matchBearer (match authorization req with Some header => header | None => "" end)
    = Some idToken.
Proof.
  intros (Hh & Hne & Hnl). rewrite Hh. now apply matchBearer_iff.
Qed.

Lemma strictEq_true (x : JsOpt string) (s : string) :
  strictEq x s = true <-> x = Val s.
Proof.
  destruct x as [| |v]; simpl; try (split; discriminate).
  rewrite String.eqb_eq. split; [now intros -> | now intros [= ->]].
Qed.

(** The four ways through [authGuard]. *)
Lemma authGuard_table (env : Functions.Env) (req : Request) c :
  ((forall idToken, ~ bearerOf req idToken) ->
   Functions.authGuard env req c =
     (Ok (Functions.Responded
            (mkResponse 401 (ErrorBody "Missing Authorization header"))), c, [])) /\
  (forall idToken e,
      bearerOf req idToken ->
      Functions.verifyIdToken env idToken = Throw e ->
      Functions.authGuard env req c =
        (Ok (Functions.Responded
               (mkResponse 401 (ErrorBody "Invalid or expired token"))), c,
         [VerifyIdToken idToken])) /\
  (forall idToken decoded,
      bearerOf req idToken ->
      Functions.verifyIdToken env idToken = Ok decoded ->
      email decoded <> Val allowedEmail ->
      Functions.authGuard env req c =
        (Ok (Functions.Responded (mkResponse 403 (ErrorBody "Not allowed"))), c,
         [VerifyIdToken idToken])) /\
  (forall idToken decoded,
      bearerOf req idToken ->
      Functions.verifyIdToken env idToken = Ok decoded ->
      email decoded = Val allowedEmail ->
      Functions.authGuard env req c =
        (Ok (Functions.Next decoded), c, [VerifyIdToken idToken])).
Proof.
  unfold Functions.authGuard, tryCatch. repeat split.
  - intros H. now rewrite (matchBearer_none req H).
  - intros idToken e Hb Hv. rewrite (matchBearer_some req idToken Hb).
    unfold bind, call. now rewrite Hv.
  - intros idToken decoded Hb Hv Hemail. rewrite (matchBearer_some req idToken Hb).
    unfold bind, call. rewrite Hv.
    destruct (strictEq (email decoded) "yzhou677@gmail.com") eqn:E;
      [apply strictEq_true in E; now destruct Hemail | reflexivity].
  - intros idToken decoded Hb Hv Hemail. rewrite (matchBearer_some req idToken Hb).
    unfold bind, call. rewrite Hv, Hemail. reflexivity.
Qed.

(** X3. The auth guard decides on the header alone, then on the verified
    token: without a header of the form [Bearer <token>] it answers 401
    without verifying anything; with one, it answers 401 when verification
    throws, 403 when the verified email is not the allowed one (or is
    missing), and passes the request on only for the allowed email. *)
Theorem authGuard_decision (env : Functions.Env) (req : Request) c :
  ((forall idToken, ~ bearerOf req idToken) ->
   Functions.authGuard env req c =
     (Ok (Functions.Responded
            (mkResponse 401 (ErrorBody "Missing Authorization header"))), c, [])) /\
  (forall idToken e,
      bearerOf req idToken ->
      Functions.verifyIdToken env idToken = Throw e ->
      Functions.authGuard env req c =
        (Ok (Functions.Responded
               (mkResponse 401 (ErrorBody "Invalid or expired token"))), c,
         [VerifyIdToken idToken])) /\
  (forall idToken decoded,
      bearerOf req idToken ->
      Functions.verifyIdToken env idToken = Ok decoded ->
      email decoded <> Val allowedEmail ->
      Functions.authGuard env req c =
        (Ok (Functions.Responded (mkResponse 403 (ErrorBody "Not allowed"))), c,
         [VerifyIdToken idToken])) /\
  (forall idToken decoded,
      bearerOf req idToken ->
      Functions.verifyIdToken env idToken = Ok decoded ->
      email decoded = Val allowedEmail ->
      Functions.authGuard env req c =
        (Ok (Functions.Next decoded), c, [VerifyIdToken idToken])).
Proof. apply authGuard_table. Qed.

(** A request has a bearer token or has none. *)
Lemma bearerOf_dec (req : Request) :
  (exists idToken, bearerOf req idToken) \/ (forall idToken, ~ bearerOf req idToken).
Proof.
  destruct (matchBearer (match authorization req with
                         | Some header => header | None => "" end))
    as [idToken|] eqn:Hm.
  - left. exists idToken. apply matchBearer_iff in Hm as (Hh & Hne & Hnl).
    unfold bearerOf. destruct (authorization req) as [header|];
      [now subst | discriminate Hh].
  - right. intros idToken Hb. now rewrite (matchBearer_some req idToken Hb) in Hm.
Qed.

(** X4. Behind the guard: the route of functions/index.js reads the store,
    calls the model or changes the cache only for a request whose bearer
    token verifies to the allowed email; any other request is answered 401
    or 403 whatever its body. *)
Theorem route_guards_all_io (env : Functions.Env) (req : Request) c :
  (exists idToken decoded,
      bearerOf req idToken /\
      Functions.verifyIdToken env idToken = Ok decoded /\
      email decoded = Val allowedEmail /\
      Functions.recommendRoute env req c =
        (let '(r, c1, t) := Functions.recommendHandler env req c in
         (r, c1, VerifyIdToken idToken :: t))) \/
  (exists response trace,
      Functions.recommendRoute env req c = (Ok response, c, trace) /\
      (status response = 401 \/ status response = 403) /\
      storeReads trace = 0%nat /\ llmCalls trace = 0%nat).
Proof.
  destruct (authGuard_table env req c) as (Hnone & Hthrow & Hother & Hpass).
  unfold Functions.recommendRoute, bind.
  destruct (bearerOf_dec req) as [(idToken & Hb) | Hno].
  - destruct (Functions.verifyIdToken env idToken) as [decoded | e] eqn:Hv.
    + destruct (strictEq (email decoded) allowedEmail) eqn:E.
      * apply strictEq_true in E. left. exists idToken, decoded.
        split; [exact Hb|]. split; [exact Hv|]. split; [exact E|].
        rewrite (Hpass idToken decoded Hb Hv E).
        now destruct (Functions.recommendHandler env req c) as [[r c1] t].
      * right. rewrite (Hother idToken decoded Hb Hv).
        -- simpl. eauto 10.
        -- intros H. apply strictEq_true in H. congruence.
    + right. rewrite (Hthrow idToken e Hb Hv). simpl. eauto 10.
  - right. rewrite (Hnone Hno). simpl. eauto 10.
Qed.

(** [favorites.map((f) => f.toLowerCase())] goes through exactly on arrays
    of strings. *)
Lemma asStrings_Ok (l : list Json) (ss : list string) :
  asStrings l = Ok ss <-> l = map JStr ss.
Proof.
  split; [|intros ->; apply asStrings_strings].
  revert ss. induction l as [|v l IH]; intros ss; simpl.
  - now intros [= <-].
  - destruct v; try discriminate.
    destruct (asStrings l) as [ss'|]; [|discriminate].
    intros [= <-]. simpl. now rewrite (IH ss' eq_refl).
Qed.

Lemma asStrings_Throw (l : list Json) (v : Json) :
  v ∈ l -> (forall s, v <> JStr s) -> exists e, asStrings l = Throw e.
Proof.
  intros Hin Hv. destruct (asStrings l) as [ss | e] eqn:E; [|eauto].
  apply asStrings_Ok in E. subst l.
  apply list_elem_of_fmap in Hin as (s & -> & _). now destruct (Hv s).
Qed.

(** What a load returns is what the cache then holds. *)
Lemma load_caches_result {G : Type} (fromDoc : Doc -> G) store now force
  (c c1 : Cache G) (games : list G) t :
  loadCandidateGamesWith fromDoc store now force c = (Ok games, c1, t) ->
  cachedGames c1 = Some games.
Proof.
  destruct (load_cases fromDoc store now force c)
    as [(g & Hhit & ->) | [(docs & _ & _ & ->) | (e & _ & _ & ->)]];
    intros [= <- <- <-]; [|reflexivity].
  now apply cacheHit_valid in Hhit.
Qed.

(** X5. A failing model fails the request but not the cache: when the call
    of the model rejects, or its text does not parse, both handlers answer
    500 after the one call, and the candidates that the request loaded stay
    cached.  functions/index.js reports the error's message, index.js a
    fixed text. *)
Theorem model_failure_is_500 :
  (forall (env : Functions.Env) (req : Request) c favorites candidates c1 t1 e,
      Functions.client env = true ->
      favorites <> [] ->
      getProp "favorites" (req_body req) = Some (JArr (map JStr favorites)) ->
      Functions.loadCandidateGames (Functions.store env) (Functions.now env) false c
        = (Ok candidates, c1, t1) ->
      let pool := Functions.requestPool candidates favorites in
      let request := Functions.llmRequest pool favorites
                       (Functions.stringify env (Functions.simplified pool)) in
      Functions.llm env request = Functions.LlmFailure e \/
      Functions.llm env request = Functions.LlmText (Throw e) ->
      Functions.recommendHandler env req c =
        (Ok (mkResponse 500 (ErrorBody (messageOrToString e))), c1,
         t1 ++ [LlmCreate request]) /\
      cachedGames c1 = Some candidates) /\
  (forall (env : Server.Env) (req : Request) c favorites candidates c1 t1 e,
      favorites <> [] ->
      getProp "favorites" (req_body req) = Some (JArr (map JStr favorites)) ->
      Server.loadCandidateGames (Server.store env) (Server.now env) false c
        = (Ok candidates, c1, t1) ->
      let shown := Server.filterByGenre candidates favorites in
      let request := Server.llmRequest favorites
                       (Server.stringify env (Server.simplified shown)) in
      Server.llm env request = Server.LlmFailure e \/
      Server.llm env request = Server.LlmText (Throw e) ->
      Server.recommendHandler env req c =
        (Ok (mkResponse 500 (ErrorBody "Internal LLM or Firestore error")), c1,
         t1 ++ [LlmCreate request]) /\
      cachedGames c1 = Some candidates).
Proof.
  split.
  - intros env req c favorites candidates c1 t1 e Hclient Hne Hfav Hload pool request Hllm.
    split; [|exact (load_caches_result _ _ _ _ _ _ _ _ Hload)].
    destruct favorites as [|f fs]; [now destruct Hne|].
    rewrite (functions_handler_run env req c (JStr f) (map JStr fs) Hclient Hfav).
    rewrite Hload.
    change (JStr f :: map JStr fs) with (map JStr (f :: fs)).
    rewrite asStrings_strings. cbv zeta. fold pool. fold request.
    now destruct Hllm as [-> | ->].
  - intros env req c favorites candidates c1 t1 e Hne Hfav Hload shown request Hllm.
    split; [|exact (load_caches_result _ _ _ _ _ _ _ _ Hload)].
    destruct favorites as [|f fs]; [now destruct Hne|].
    rewrite (server_handler_run env req c (JStr f) (map JStr fs) Hfav).
    cbv zeta. rewrite Hload.
    change (JStr f :: map JStr fs) with (map JStr (f :: fs)).
    rewrite asStrings_strings. fold shown. fold request.
    now destruct Hllm as [-> | ->].
Qed.

(** X6. A favorite that is not a string fails the request late: the
    handlers first load the candidates, reading the store if the cache is
    stale, and only then fail on the element, answering 500 without
    calling the model. *)
Theorem non_string_favorite_is_500 :
  (forall (env : Functions.Env) (req : Request) c favs v,
      Functions.client env = true ->
      getProp "favorites" (req_body req) = Some (JArr favs) ->
      v ∈ favs -> (forall s, v <> JStr s) ->
      exists response,
        Functions.recommendHandler env req c =
          (let '(_, c1, t1) :=
             Functions.loadCandidateGames (Functions.store env) (Functions.now env)
               false c in
           (Ok response, c1, t1)) /\
        status response = 500) /\
  (forall (env : Server.Env) (req : Request) c favs v,
      getProp "favorites" (req_body req) = Some (JArr favs) ->
      v ∈ favs -> (forall s, v <> JStr s) ->
      exists response,
        Server.recommendHandler env req c =
          (let '(_, c1, t1) :=
             Server.loadCandidateGames (Server.store env) (Server.now env) false c in
           (Ok response, c1, t1)) /\
        status response = 500).
Proof.
  split.
  - intros env req c favs v Hclient Hfav Hin Hv.
    destruct (asStrings_Throw favs v Hin Hv) as (e & He).
    destruct favs as [|f fs]; [now apply not_elem_of_nil in Hin|].
    rewrite (functions_handler_run env req c f fs Hclient Hfav), He.
    destruct (Functions.loadCandidateGames _ _ _ c) as [[[candidates | e'] c1] t1];
      eauto.
  - intros env req c favs v Hfav Hin Hv.
    destruct (asStrings_Throw favs v Hin Hv) as (e & He).
    destruct favs as [|f fs]; [now apply not_elem_of_nil in Hin|].
    rewrite (server_handler_run env req c f fs Hfav), He. cbv zeta.
    destruct (Server.loadCandidateGames _ _ _ c) as [[[candidates | e'] c1] t1];
      eauto.
Qed.

Lemma cacheHit_miss_stale {G : Type} (now : Z) (c : Cache G) :
  cacheHit false now c = None -> staleAt now c.
Proof. intros H. apply cacheHit_invalid in H as [H | H]; [discriminate | exact H]. Qed.

(** Everything that one run of the handler of functions/index.js can be. *)
Lemma functions_handler_outcome (env : Functions.Env) (req : Request) c :
  exists response c' trace,
    Functions.recommendHandler env req c = (Ok response, c', trace) /\
    (status response = 200 \/ status response = 400 \/ status response = 500) /\
    loadThenAsk trace /\
    (status response = 200 -> exists request, LlmCreate request ∈ trace) /\
    (status response = 400 -> trace = [] /\ c' = c) /\
    refilledOrSame (fun doc : Doc => doc) (Functions.store env) (Functions.now env) c c'.
Proof.
  unfold loadThenAsk, refilledOrSame.
  destruct (Functions.client env) eqn:Hclient.
  2:{ rewrite (functions_handler_unconfigured env req c Hclient).
      eexists _, _, _. split; [reflexivity|]. simpl.
      repeat split; auto; discriminate. }
  destruct (favorites_array_or_rejected (req_body req)) as [(f & fs & Hfav) | Hrej].
  2:{ rewrite (functions_handler_rejected env req c Hclient Hrej).
      eexists _, _, _. split; [reflexivity|]. simpl.
      repeat split; auto; discriminate. }
  rewrite (functions_handler_run env req c f fs Hclient Hfav).
  unfold Functions.loadCandidateGames.
  destruct (load_cases (fun doc : Doc => doc) (Functions.store env)
              (Functions.now env) false c)
    as [(games & Hhit & ->) | [(docs & Hmiss & Hstore & ->) | (e & Hmiss & Hstore & ->)]].
  - destruct (asStrings (f :: fs)) as [favorites | e].
    + cbv zeta. destruct (Functions.llm env _) as [e | [out | e]];
        eexists _, _, _; (split; [reflexivity|]); simpl;
        repeat split; eauto 7; try discriminate;
        intros _; eexists; apply list_elem_of_here.
    + eexists _, _, _. split; [reflexivity|]. simpl.
      repeat split; auto; discriminate.
  - apply cacheHit_miss_stale in Hmiss.
    destruct (asStrings (f :: fs)) as [favorites | e].
    + cbv zeta. destruct (Functions.llm env _) as [e | [out | e]];
        eexists _, _, _; (split; [reflexivity|]); simpl;
        repeat split; eauto 8; try discriminate;
        intros _; eexists; apply list_elem_of_further, list_elem_of_here.
    + eexists _, _, _. split; [reflexivity|]. simpl.
      repeat split; eauto 8; discriminate.
  - eexists _, _, _. split; [reflexivity|]. simpl.
    repeat split; auto; discriminate.
Qed.

(** Everything that one run of the handler of index.js can be. *)
Lemma server_handler_outcome (env : Server.Env) (req : Request) c :
  exists response c' trace,
    Server.recommendHandler env req c = (Ok response, c', trace) /\
    (status response = 200 \/ status response = 400 \/ status response = 500) /\
    loadThenAsk trace /\
    (status response = 200 -> exists request, LlmCreate request ∈ trace) /\
    (status response = 400 -> trace = [] /\ c' = c) /\
    (status response = 500 ->
     body response = ErrorBody "Internal LLM or Firestore error") /\
    refilledOrSame Server.fromDoc (Server.store env) (Server.now env) c c'.
Proof.
  unfold loadThenAsk, refilledOrSame.
  destruct (favorites_array_or_rejected (req_body req)) as [(f & fs & Hfav) | Hrej].
  2:{ rewrite (server_handler_rejected env req c Hrej).
      eexists _, _, _. split; [reflexivity|]. simpl.
      repeat split; auto; discriminate. }
  rewrite (server_handler_run env req c f fs Hfav). cbv zeta.
  unfold Server.loadCandidateGames.
  destruct (load_cases Server.fromDoc (Server.store env) (Server.now env) false c)
    as [(games & Hhit & ->) | [(docs & Hmiss & Hstore & ->) | (e & Hmiss & Hstore & ->)]].
  - destruct (asStrings (f :: fs)) as [favorites | e].
    + destruct (Server.llm env _) as [e | [out | e]];
        eexists _, _, _; (split; [reflexivity|]); simpl;
        repeat split; eauto 7; try discriminate;
        intros _; eexists; apply list_elem_of_here.
    + eexists _, _, _. split; [reflexivity|]. simpl.
      repeat split; auto; discriminate.
  - apply cacheHit_miss_stale in Hmiss.
    destruct (asStrings (f :: fs)) as [favorites | e].
    + destruct (Server.llm env _) as [e | [out | e]];
        eexists _, _, _; (split; [reflexivity|]); simpl;
        repeat split; eauto 8; try discriminate;
        intros _; eexists; apply list_elem_of_further, list_elem_of_here.
    + eexists _, _, _. split; [reflexivity|]. simpl.
      repeat split; eauto 8; discriminate.
  - eexists _, _, _. split; [reflexivity|]. simpl.
    repeat split; auto; discriminate.
Qed.

(** X7. Both handlers always answer: no path leaves an exception
    unhandled; the status is 200, 400 or 500; the store is read at most
    once and the model called at most once, in that order; a 200 follows a
    call of the model; a 400 follows nothing at all.  The 500 of index.js
    always carries the same fixed text. *)
Theorem handlers_always_answer :
  (forall (env : Functions.Env) (req : Request) c,
      exists response c' trace,
        Functions.recommendHandler env req c = (Ok response, c', trace) /\
        (status response = 200 \/ status response = 400 \/ status response = 500) /\
        loadThenAsk trace /\
        (status response = 200 -> exists request, LlmCreate request ∈ trace) /\
        (status response = 400 -> trace = [] /\ c' = c)) /\
  (forall (env : Server.Env) (req : Request) c,
      exists response c' trace,
        Server.recommendHandler env req c = (Ok response, c', trace) /\
        (status response = 200 \/ status response = 400 \/ status response = 500) /\
        loadThenAsk trace /\
        (status response = 200 -> exists request, LlmCreate request ∈ trace) /\
        (status response = 400 -> trace = [] /\ c' = c) /\
        (status response = 500 ->
         body response = ErrorBody "Internal LLM or Firestore error")).
Proof.
  split; intros env req c.
  - destruct (functions_handler_outcome env req c)
      as (response & c' & trace & H1 & H2 & H3 & H4 & H5 & _).
    exists response, c', trace. auto.
  - destruct (server_handler_outcome env req c)
      as (response & c' & trace & H1 & H2 & H3 & H4 & H5 & H6 & _).
    exists response, c', trace. auto 7.
Qed.




(* ===================================================================== *)
(** ** What the genre filter keeps *)
(* ===================================================================== *)

Lemma includes_true (favorites : list string) (key : string) :
  includes (map toLowerCase favorites) key = true <->
  exists f, f ∈ favorites /\ toLowerCase f = key.
Proof.
  unfold includes. rewrite existsb_elem_of. split.
  - intros (k & Hk & E). apply String.eqb_eq in E as ->.
    apply list_elem_of_fmap in Hk as (f & -> & Hf). eauto.
  - intros (f & Hf & <-). exists (toLowerCase f). split.
    + apply list_elem_of_fmap. eauto.
    + apply String.eqb_refl.
Qed.

Lemma filter_elem_of {A : Type} (p : A -> bool) (l : list A) (x : A) :
  x ∈ List.filter p l <-> x ∈ l /\ p x = true.
Proof. rewrite !list_elem_of_In. apply filter_In. Qed.

Lemma flat_map_elem_of {A B : Type} (h : A -> list B) (l : list A) (y : B) :
  y ∈ flat_map h l <-> exists x, x ∈ l /\ y ∈ h x.
Proof.
  rewrite list_elem_of_In, in_flat_map. split; intros (x & Hx & Hy); exists x;
    split; try (now apply list_elem_of_In).
Qed.

Lemma filter_filter_same {A : Type} (p : A -> bool) (l : list A) :
  List.filter p (List.filter p l) = List.filter p l.
Proof.
  induction l as [|x l IH]; simpl; [reflexivity|].
  destruct (p x) eqn:E; simpl; [rewrite E; now f_equal | exact IH].
Qed.

Lemma filterByGenre_unfold (candidates : list Doc) (favorites : list string) :
  Functions.filterByGenre candidates favorites =
    let liked := likedGenres candidates favorites in
    if (size liked =? 0)%nat then candidates
    else
      let filtered := List.filter (sharesLiked liked) candidates in
      if (length filtered =? 0)%nat then candidates else filtered.
Proof. reflexivity. Qed.

Lemma likedGenres_elem_of (candidates : list Doc) (favorites : list string) (x : string) :
  x ∈ likedGenres candidates favorites <->
  exists fav, fav ∈ candidates /\ namedBy favorites fav /\ x ∈ genreNames fav.
Proof.
  unfold likedGenres, namedBy, genreNames.
  rewrite elem_of_list_to_set, flat_map_elem_of. split.
  - intros (fav & Hfav & Hx). apply filter_elem_of in Hfav as (Hin & Hnamed).
    apply includes_true in Hnamed. eauto.
  - intros (fav & Hin & Hnamed & Hx). exists fav. split; [|exact Hx].
    apply filter_elem_of. split; [exact Hin|]. now apply includes_true.
Qed.

Lemma sharesLiked_true (liked : gset string) (g : Doc) :
  sharesLiked liked g = true <-> exists x, x ∈ genreNames g /\ x ∈ liked.
Proof.
  unfold sharesLiked, genreNames. rewrite existsb_elem_of. split.
  - intros (gen & Hgen & Hx). apply bool_decide_eq_true in Hx.
    exists (gen_name gen). split; [|exact Hx]. apply list_elem_of_fmap. eauto.
  - intros (x & Hx & Hl). apply list_elem_of_fmap in Hx as (gen & -> & Hgen).
    exists gen. split; [exact Hgen|]. now apply bool_decide_eq_true.
Qed.

Lemma likedGenres_empty (candidates : list Doc) (favorites : list string) :
  size (likedGenres candidates favorites) = 0%nat <->
  forall fav, fav ∈ candidates -> namedBy favorites fav -> genreNames fav = [].
Proof.
  rewrite size_empty_iff, elem_of_equiv_empty. split.
  - intros Hempty fav Hin Hnamed.
    destruct (genreNames fav) as [|x rest] eqn:E; [reflexivity|].
    assert (Hx : x ∈ likedGenres candidates favorites).
    { apply likedGenres_elem_of. exists fav. rewrite E.
      repeat split; try assumption. apply list_elem_of_here. }
    now apply Hempty in Hx.
  - intros H x Hx. apply likedGenres_elem_of in Hx as (fav & Hin & Hnamed & Hx).
    rewrite (H fav Hin Hnamed) in Hx. now apply not_elem_of_nil in Hx.
Qed.

(** A liked genre comes from a candidate that the filter keeps. *)
Lemma liked_filter_nonempty (candidates : list Doc) (favorites : list string) :
  size (likedGenres candidates favorites) <> 0%nat ->
  List.filter (sharesLiked (likedGenres candidates favorites)) candidates <> [].
Proof.
  intros Hsize.
  destruct (elements (likedGenres candidates favorites)) as [|x rest] eqn:E.
  { destruct Hsize. unfold size, set_size. simpl. now rewrite E. }
  assert (Hx : x ∈ likedGenres candidates favorites).
  { apply elem_of_elements. rewrite E. apply list_elem_of_here. }
  pose proof Hx as Hx'.
  apply likedGenres_elem_of in Hx' as (fav & Hin & Hnamed & Hgen).
  assert (Hkept : fav ∈ List.filter (sharesLiked (likedGenres candidates favorites))
                          candidates).
  { apply filter_elem_of. split; [exact Hin|]. apply sharesLiked_true. eauto. }
  intros Hnil. rewrite Hnil in Hkept. now apply not_elem_of_nil in Hkept.
Qed.

Lemma filterByGenre_filtered (candidates : list Doc) (favorites : list string) :
  size (likedGenres candidates favorites) <> 0%nat ->
  Functions.filterByGenre candidates favorites =
    List.filter (sharesLiked (likedGenres candidates favorites)) candidates.
Proof.
  intros Hsize. rewrite filterByGenre_unfold. cbv zeta.
  destruct (Nat.eqb_spec (size (likedGenres candidates favorites)) 0) as [E | _];
    [now destruct Hsize|].
  pose proof (liked_filter_nonempty candidates favorites Hsize) as Hne.
  destruct (List.filter _ candidates) as [|g rest]; [now destruct Hne | reflexivity].
Qed.

(** X11. The last fallback of [filterByGenre] is dead: when the set of
    liked genres is not empty, a candidate that contributed to it passes
    the filter, so [filtered] is never empty and the function is the
    two-way choice between the candidates and the filtered list. *)
Theorem filterByGenre_without_last_fallback (candidates : list Doc)
  (favorites : list string) :
  Functions.filterByGenre candidates favorites =
    (if (size (likedGenres candidates favorites) =? 0)%nat then candidates
     else List.filter (sharesLiked (likedGenres candidates favorites)) candidates) /\
  (size (likedGenres candidates favorites) <> 0%nat ->
   List.filter (sharesLiked (likedGenres candidates favorites)) candidates <> []).
Proof.
  split; [|apply liked_filter_nonempty].
  destruct (Nat.eqb_spec (size (likedGenres candidates favorites)) 0) as [E | Hne].
  - rewrite filterByGenre_unfold. cbv zeta. now rewrite E.
  - now apply filterByGenre_filtered.
Qed.

(** X12. What [filterByGenre] returns, in terms of names and genres: the
    candidates unchanged when no candidate named by a favorite has a
    genre; otherwise, in their order, exactly the candidates that have a
    genre in common with a candidate named by a favorite. *)
Theorem filterByGenre_keeps_liked (candidates : list Doc) (favorites : list string) :
  ((forall fav, fav ∈ candidates -> namedBy favorites fav -> genreNames fav = []) ->
   Functions.filterByGenre candidates favorites = candidates) /\
  ((exists fav, fav ∈ candidates /\ namedBy favorites fav /\ genreNames fav <> []) ->
   sublist (Functions.filterByGenre candidates favorites) candidates /\
   forall g, g ∈ Functions.filterByGenre candidates favorites <->
             g ∈ candidates /\ likedBy candidates favorites g).
Proof.
  split.
  - intros H. apply likedGenres_empty in H.
    rewrite filterByGenre_unfold. cbv zeta. now rewrite H.
  - intros (fav & Hin & Hnamed & Hgen).
    assert (Hsize : size (likedGenres candidates favorites) <> 0%nat).
    { intros E. rewrite likedGenres_empty in E. now apply Hgen, E. }
    rewrite (filterByGenre_filtered candidates favorites Hsize).
    split; [apply filter_sublist|].
    intros g. rewrite filter_elem_of, sharesLiked_true. unfold likedBy.
    split.
    + intros (Hg & x & Hx & Hliked). split; [exact Hg|].
      apply likedGenres_elem_of in Hliked as (fav' & Hin' & Hnamed' & Hx').
      exists fav', x. auto.
    + intros (Hg & fav' & x & Hin' & Hnamed' & Hx' & Hx). split; [exact Hg|].
      exists x. split; [exact Hx|]. apply likedGenres_elem_of. eauto.
Qed.

(** X13. [filterByGenre] is idempotent: filtering the filtered pool again
    with the same favorites changes nothing. *)
Theorem filterByGenre_idempotent (candidates : list Doc) (favorites : list string) :
  Functions.filterByGenre (Functions.filterByGenre candidates favorites) favorites
    = Functions.filterByGenre candidates favorites.
Proof.
  destruct (Nat.eqb_spec (size (likedGenres candidates favorites)) 0) as [E | Hne].
  - assert (H : Functions.filterByGenre candidates favorites = candidates)
      by (rewrite filterByGenre_unfold; cbv zeta; now rewrite E).
    now rewrite !H.
  - rewrite (filterByGenre_filtered candidates favorites Hne).
    set (liked := likedGenres candidates favorites).
    set (kept := List.filter (sharesLiked liked) candidates).
    assert (Hsame : likedGenres kept favorites = liked).
    { apply set_eq. intros x. subst liked. rewrite !likedGenres_elem_of. split.
      - intros (fav & Hin & Hnamed & Hx). exists fav.
        apply filter_elem_of in Hin as [Hin _]. auto.
      - intros (fav & Hin & Hnamed & Hx). exists fav. repeat split; try assumption.
        apply filter_elem_of. split; [exact Hin|].
        apply sharesLiked_true. exists x. split; [exact Hx|].
        apply likedGenres_elem_of. eauto. }
    rewrite filterByGenre_filtered; rewrite Hsame; [|exact Hne].
    apply filter_filter_same.
Qed.

Lemma includes_same_members (l1 l2 : list string) (key : string) :
  (forall k, k ∈ l1 <-> k ∈ l2) -> includes l1 key = includes l2 key.
Proof.
  intros H. unfold includes.
  destruct (existsb (String.eqb key) l2) eqn:E2.
  - apply existsb_elem_of in E2 as (k & Hk & E). apply existsb_elem_of.
    exists k. split; [now apply H | exact E].
  - destruct (existsb (String.eqb key) l1) eqn:E1; [|reflexivity].
    apply existsb_elem_of in E1 as (k & Hk & E).
    assert (existsb (String.eqb key) l2 = true)
      by (apply existsb_elem_of; exists k; split; [now apply H | exact E]).
    congruence.
Qed.

(** X14. Only the set of lower-cased favorites matters: two favorites
    lists with the same lower-cased members, in any order, case and
    multiplicity, give the same genre-filtered pool and the same final
    pool. *)
Theorem favorites_matter_up_to_case (candidates : list Doc)
  (favorites1 favorites2 : list string) :
  (forall k, k ∈ map toLowerCase favorites1 <-> k ∈ map toLowerCase favorites2) ->
  Functions.filterByGenre candidates favorites1
    = Functions.filterByGenre candidates favorites2 /\
  Functions.requestPool candidates favorites1
    = Functions.requestPool candidates favorites2.
Proof.
  intros H.
  assert (Hp : forall g : Doc,
             includes (map toLowerCase favorites1) (Functions.nameKey g)
             = includes (map toLowerCase favorites2) (Functions.nameKey g))
    by (intros g; now apply includes_same_members).
  assert (Hf : Functions.filterByGenre candidates favorites1
               = Functions.filterByGenre candidates favorites2).
  { unfold Functions.filterByGenre. cbv zeta.
    now rewrite (List.filter_ext _ _ Hp candidates). }
  split; [exact Hf|].
  unfold Functions.requestPool, Functions.selectPool, Functions.excludeFavorites.
  cbv zeta. rewrite Hf.
  assert (Hn : forall g : Doc,
             negb (includes (map toLowerCase favorites1) (Functions.nameKey g))
             = negb (includes (map toLowerCase favorites2) (Functions.nameKey g)))
    by (intros g; now rewrite Hp).
  now rewrite (List.filter_ext _ _ Hn).
Qed.

(* ===================================================================== *)
(** ** The two deployments filter alike *)
(* ===================================================================== *)

Lemma filter_map_commute {A B : Type} (h : A -> B) (p : B -> bool) (l : list A) :
  List.filter p (map h l) = map h (List.filter (fun x => p (h x)) l).
Proof.
  induction l as [|x l IH]; simpl; [reflexivity|].
  destruct (p (h x)); simpl; now rewrite IH.
Qed.

Lemma flat_map_map {A B C : Type} (h : A -> B) (k : B -> list C) (l : list A) :
  flat_map k (map h l) = flat_map (fun x => k (h x)) l.
Proof. induction l as [|x l IH]; simpl; [reflexivity | now rewrite IH]. Qed.

Lemma existsb_map_commute {A B : Type} (h : A -> B) (p : B -> bool) (l : list A) :
  existsb p (map h l) = existsb (fun x => p (h x)) l.
Proof. induction l as [|x l IH]; simpl; [reflexivity | now rewrite IH]. Qed.

(** X15. The genre filters of the two files agree: filtering the
    candidates that index.js caches ([fromDoc] of the documents) selects
    the same documents, in the same order, as filtering the documents
    themselves does in functions/index.js. *)
Theorem filters_agree_through_fromDoc (docs : list Doc) (favorites : list string) :
  Server.filterByGenre (map Server.fromDoc docs) favorites
    = map Server.fromDoc (Functions.filterByGenre docs favorites).
Proof.
  unfold Server.filterByGenre, Functions.filterByGenre. cbv zeta.
  rewrite !filter_map_commute, flat_map_map.
  change (fun x : Doc => includes (map toLowerCase favorites)
                           (Server.nameKey (Server.fromDoc x)))
    with (fun g : Doc => includes (map toLowerCase favorites) (Functions.nameKey g)).
  change (fun x : Doc => orNil (Server.game_genres (Server.fromDoc x)))
    with (fun g : Doc => map gen_name (orNil (doc_genres g))).
  set (liked := list_to_set _).
  destruct (size liked =? 0)%nat; [reflexivity|].
  rewrite length_map.
  assert (Hkeep : forall g : Doc,
             existsb (fun genre => bool_decide (genre ∈ liked))
                     (orNil (Server.game_genres (Server.fromDoc g)))
             = existsb (fun gen => bool_decide (gen_name gen ∈ liked))
                       (orNil (doc_genres g)))
    by (intros g; apply existsb_map_commute).
  rewrite (List.filter_ext _ _ Hkeep).
  now destruct (length _ =? 0)%nat.
Qed.

(* ===================================================================== *)
(** ** What the pool selector hands to the model *)
(* ===================================================================== *)

(** X16. The pool is made of candidates, in the store's order, and is
    empty only when there is no candidate at all. *)
Theorem pool_within_candidates (candidates : list Doc) (favorites : list string) :
  sublist (Functions.requestPool candidates favorites) candidates /\
  (candidates <> [] -> Functions.requestPool candidates favorites <> []).
Proof.
  pose proof (excluded_sublist candidates favorites) as Hex.
  pose proof (genreFiltered_sublist candidates favorites) as Hgf.
  destruct (selectPool_cases candidates favorites)
    as [(H & ->) | [(_ & H & ->) | (_ & _ & ->)]].
  - split; [etransitivity; eassumption|].
    intros _ E. rewrite E in H. simpl in H. lia.
  - split; [exact Hgf|]. intros _ E. rewrite E in H. simpl in H. lia.
  - split; [reflexivity | auto].
Qed.

(** X17. Favorites are kept out of the pool whenever that leaves at least
    8 games: if the genre-filtered pool has 8 or more games that no
    favorite names, no game of the pool is named by a favorite. *)
Theorem pool_excludes_favorites (candidates : list Doc) (favorites : list string) :
  (8 <= length (Functions.excludeFavorites
                  (Functions.filterByGenre candidates favorites) favorites))%nat ->
  forall g, g ∈ Functions.requestPool candidates favorites -> ~ namedBy favorites g.
Proof.
  intros Hlen g Hg Hnamed.
  destruct (selectPool_cases candidates favorites)
    as [(_ & E) | [(H & _) | (H & _)]]; [|lia..].
  rewrite E in Hg. unfold Functions.excludeFavorites in Hg.
  apply filter_elem_of in Hg as [_ Hg].
  apply negb_true_iff in Hg.
  assert (includes (map toLowerCase favorites) (Functions.nameKey g) = true)
    by now apply includes_true.
  congruence.
Qed.

(* ===================================================================== *)
(** ** Indices from the prompt back to the pool *)
(* ===================================================================== *)

(** X18. Positions are the reference: the k-th entry shown to the model
    carries the index k and the name, genres and rating of the k-th game of
    the pool, and an item that cites the index k is reconciled to that
    game. *)
Theorem index_round_trip (pool : list Doc) (k : nat) (game : Doc) :
  pool !! k = Some game ->
  Functions.simplified pool !! k
    = Some (Functions.mkSimplified (Z.of_nat k) (doc_name game) (doc_genres game)
              (doc_rating game)) /\
  Z.of_nat k ∈ Functions.validIndexes pool /\
  forall why, Functions.reconcile pool (Functions.mkItem (Z.of_nat k) why)
              = Functions.enriched game why.
Proof.
  intros Hk. split; [|split].
  - unfold Functions.simplified. now rewrite list_lookup_imap, Hk.
  - apply validIndexes_domain. apply lookup_lt_Some in Hk. unfold indexDomain. lia.
  - intros why. unfold Functions.reconcile, at_index. simpl.
    destruct (Z.of_nat k <? 0) eqn:E; [apply Z.ltb_lt in E; lia|].
    now rewrite Nat2Z.id, Hk.
Qed.

(** X19. An output that keeps to the enumerated indices degrades nothing:
    if every item cites an index of [validIndexes], every record of the
    response is a game of the pool with the item's reason. *)
Theorem valid_indexes_all_resolve (pool : list Doc) (items : list Functions.Item) :
  (forall r, r ∈ items -> Functions.index r ∈ Functions.validIndexes pool) ->
  forall out, out ∈ Functions.finalResult pool items ->
    exists r game,
      r ∈ items /\ game ∈ pool /\ out = Functions.enriched game (Functions.reason r).
Proof.
  intros Hall out Hout. unfold Functions.finalResult in Hout.
  apply list_elem_of_fmap in Hout as (r & -> & Hr).
  specialize (Hall r Hr). apply validIndexes_domain in Hall.
  destruct (reconcile_in_range pool r Hall) as (game & Hgame & ->).
  exists r, game. repeat split; [exact Hr|].
  apply list_elem_of_lookup. eauto.
Qed.

(** X20. With an empty pool the schema accepts nothing: the enumeration of
    indices is empty while 8 items are required, so no output of the model
    can conform. *)
Theorem empty_pool_schema_unsatisfiable (v : Json) :
  validates (Functions.outputSchema []) v = false.
Proof.
  destruct (validates (Functions.outputSchema []) v) eqn:E; [|reflexivity].
  apply outputSchema_declared in E as (members & -> & _ & (x & Hx) & Hall).
  destruct (Hall _ _ Hx) as [(Hk & _) | (_ & items & -> & Hlen & Hitems)];
    [discriminate Hk|].
  destruct items as [|item items]; [discriminate Hlen|].
  destruct (Hitems item (list_elem_of_here _ _)) as (ms & -> & (y & Hy) & _ & Hms).
  destruct (Hms _ _ Hy) as [(_ & q & i & _ & _ & Hdom) | (Hk & _)];
    [|discriminate Hk].
  unfold indexDomain in Hdom. simpl in Hdom. lia.
Qed.

(** X21. With fewer than 8 games in the pool, 8 items within the
    enumerated indices must cite some game twice. *)
Theorem small_pool_forces_repeats (pool : list Doc) (items : list Functions.Item) :
  (length pool < 8)%nat ->
  length items = 8%nat ->
  (forall r, r ∈ items -> Functions.index r ∈ Functions.validIndexes pool) ->
  ~ NoDup (map Functions.index items).
Proof.
  intros Hpool Hlen Hall Hnodup.
  assert (Hsub : map Functions.index items ⊆+ Functions.validIndexes pool).
  { apply NoDup_submseteq; [exact Hnodup|].
    intros i Hi. apply list_elem_of_fmap in Hi as (r & -> & Hr). now apply Hall. }
  apply submseteq_length in Hsub.
  unfold Functions.validIndexes, Functions.simplified in Hsub.
  rewrite !length_map, length_imap in Hsub. lia.
Qed.

(* ===================================================================== *)
(** ** More on index.js *)
(* ===================================================================== *)

Lemma fromDoc_genres (candidates : list Server.Game) (docs : list Doc) (g : Server.Game) :
  candidates = map Server.fromDoc docs -> g ∈ candidates ->
  exists names, Server.game_genres g = Val names.
Proof.
  intros -> Hg. apply list_elem_of_fmap in Hg as (doc & -> & _).
  simpl. eauto.
Qed.

(** X22. On the candidates that index.js caches, the degraded record means
    an unknown id and nothing else: every cached candidate carries a genre
    array, so the record of a known id is never mistaken for
    [{id, name: null, reason}]. *)
Theorem degraded_means_unknown_id (docs : list Doc) (r : Server.Item) :
  let candidates := map Server.fromDoc docs in
  (forall g, g ∈ candidates -> exists names, Server.game_genres g = Val names) /\
  (Server.reconcile candidates r = Server.degraded (Server.id r) (Server.reason r) <->
   forall g, g ∈ candidates -> Server.game_id g <> Val (Server.id r)).
Proof.
  intros candidates. split.
  - intros g Hg. now apply (fromDoc_genres candidates docs).
  - unfold Server.reconcile.
    destruct (find_first (Server.hasId (Server.id r)) candidates) as [game|] eqn:Hfind.
    + destruct (find_first_Some _ _ _ Hfind) as (before & after & Hsplit & Hid & _).
      assert (Hin : game ∈ candidates).
      { rewrite Hsplit. apply elem_of_app. right. apply list_elem_of_here. }
      split.
      * intros Heq.
        destruct (fromDoc_genres candidates docs game eq_refl Hin) as (names & Hn).
        apply (f_equal Server.rec_genres) in Heq. simpl in Heq. congruence.
      * intros H. apply hasId_true in Hid. now destruct (H game Hin).
    + split; [|reflexivity]. intros _ g Hg.
      rewrite find_first_None in Hfind. now apply hasId_false, Hfind.
Qed.

Lemma validates_number (v : Json) :
  validates SNumber v = true <-> exists q, v = JNum q.
Proof.
  split; [|now intros (q & ->)].
  destruct v; simpl; try discriminate. eauto.
Qed.

Lemma validates_array_unbounded (s : Schema) (v : Json) :
  validates (SArray None None s) v = true <->
  exists items, v = JArr items /\ forall item, item ∈ items -> validates s item = true.
Proof.
  split.
  - destruct v; simpl; try discriminate.
    rewrite forallb_elem_of. eauto.
  - intros (items & -> & Hall). simpl. now apply forallb_elem_of.
Qed.

Lemma validates_object1 (k1 : string) (s1 : Schema) (v : Json) :
  validates (SObject [(k1, s1)] [k1] false) v = true <->
  exists members, v = JObj members /\
    (exists x, (k1, x) ∈ members) /\
    forall k x, (k, x) ∈ members -> k = k1 /\ validates s1 x = true.
Proof.
  split.
  - destruct v; simpl; try discriminate.
    rewrite !andb_true_iff, forallb_elem_of, hasKey_member.
    intros ((H1 & _) & Hall). exists members. repeat split; try assumption;
      specialize (Hall (k, x) H); simpl in Hall;
      destruct (String.eqb_spec k1 k) as [<- | _]; try reflexivity;
      try assumption; discriminate.
  - intros (members & -> & H1 & Hall). simpl.
    rewrite !andb_true_iff, forallb_elem_of, hasKey_member.
    repeat split; try assumption.
    intros [k x] Hin. simpl. destruct (Hall k x Hin) as (-> & Hv).
    now rewrite String.eqb_refl.
Qed.

(** X23. The contract of index.js: its schema accepts exactly the objects
    whose only member is a [recommendations] array of objects with a
    numeric [id] and a string [reason] and nothing else, of any length;
    the count of 5 stands in the prompt only. *)
Theorem server_output_contract :
  (forall v,
      validates Server.outputSchema v = true <->
      exists members,
        v = JObj members /\ hasMember "recommendations" members /\
        forall k x, (k, x) ∈ members ->
          k = "recommendations" /\
          exists items,
            x = JArr items /\
            forall item, item ∈ items ->
              exists ms,
                item = JObj ms /\ hasMember "id" ms /\ hasMember "reason" ms /\
                forall k' y, (k', y) ∈ ms ->
                  (k' = "id" /\ exists q, y = JNum q) \/
                  (k' = "reason" /\ exists s, y = JStr s)) /\
  (forall favorites serialized,
      occurs_in "select 5 games" (Server.prompt favorites serialized)).
Proof.
  split.
  - intros v. unfold Server.outputSchema, Server.itemSchema, hasMember.
    rewrite validates_object1.
    split; intros (members & -> & H1 & Hall); exists members;
      repeat split; try assumption; try (now apply (Hall k x)).
    + destruct (Hall k x H) as (_ & Hv).
      apply validates_array_unbounded in Hv as (items & -> & Hitems).
      exists items. split; [reflexivity|]. intros item Hitem.
      specialize (Hitems item Hitem).
      apply validates_object2 in Hitems as (ms & -> & Hid & Hreason & Hms);
        [|discriminate].
      exists ms. repeat split; try assumption.
      intros k' y Hy. destruct (Hms k' y Hy) as [(-> & Hy') | (-> & Hy')].
      * left. split; [reflexivity|]. now apply validates_number.
      * right. split; [reflexivity|]. now apply validates_string.
    + destruct (Hall k x H) as (_ & items & -> & Hitems).
      apply validates_array_unbounded. exists items. split; [reflexivity|].
      intros item Hitem. destruct (Hitems item Hitem) as (ms & -> & Hid & Hreason & Hms).
      apply validates_object2; [discriminate|].
      exists ms. repeat split; try assumption.
      intros k' y Hy. destruct (Hms k' y Hy) as [(-> & Hy') | (-> & Hy')].
      * left. split; [reflexivity|]. now apply validates_number.
      * right. split; [reflexivity|]. now apply validates_string.
  - intros favorites serialized. unfold Server.prompt, text.
    apply (occurs_join _ _
             "From ONLY these candidate games, select 5 games the user is most likely to enjoy.").
    + repeat first [ apply list_elem_of_here | apply list_elem_of_further ].
    + now exists "From ONLY these candidate games, ", " the user is most likely to enjoy.".
Qed.

End AnyLowering.

(* ===================================================================== *)
(** ** The theorems at work on the sample data *)
(* ===================================================================== *)

(** The sample data stays within Latin-1; the statements below are
    evaluated with the case mapping [latin1]. *)
#[local] Existing Instance latin1.

(** Scenario 1 of the specification: a Portal 2 fan is shown eight puzzle
    games, Portal 2 not among them. *)
Example pool_for_portal_fan :
  Functions.requestPool catalogue ["Portal 2"] = puzzlePool.
Proof. vm_compute. reflexivity. Qed.

(** Scenario 2: a favorite that names no candidate leaves the pool at the
    full candidate list. *)
Example pool_for_unknown_favorite :
  Functions.filterByGenre catalogue ["Unknown Game XYZ"] = catalogue /\
  Functions.requestPool catalogue ["Unknown Game XYZ"] = catalogue.
Proof. split; vm_compute; reflexivity. Qed.

(** Scenario 3: an empty favorites array is answered 400 once the guard has
    verified the token, the store untouched. *)
Example route_rejects_empty_favorites :
  Functions.recommendRoute configured emptyFavorites initialCache
    = (Ok rejection, initialCache, [VerifyIdToken "token"]).
Proof. vm_compute. reflexivity. Qed.

(** Scenario 4 within a whole request: the store is read once, the model is
    called once, and the item with index 999 comes back degraded among the
    seven resolved ones. *)
Example route_for_portal_fan :
  Functions.recommendRoute configured portalFan initialCache
    = (Ok (mkResponse 200
             (OkBody (Functions.mkPayload "Puzzle games close to Portal 2."
                        [ Functions.enriched tetris "Pure puzzle.";
                          Functions.enriched (puzzleGame 11 "Baba Is You") "Rule bending.";
                          Functions.enriched (puzzleGame 12 "The Witness") "First-person puzzles.";
                          Functions.degraded "Made up.";
                          Functions.enriched (puzzleGame 13 "Braid") "Time puzzles.";
                          Functions.enriched (puzzleGame 14 "Limbo") "Moody.";
                          Functions.enriched (puzzleGame 15 "Fez") "Perspective.";
                          Functions.enriched (puzzleGame 16 "Inside") "Atmospheric." ]))),
       mkCache (Some catalogue) 1762000000000,
       [ VerifyIdToken "token"; StoreGet "rawgTopGames";
         LlmCreate (Functions.llmRequest puzzlePool ["Portal 2"] "[...]") ]).
Proof. vm_compute. reflexivity. Qed.

(** The stand-alone server resolves DOOM, which the prompt did not list,
    and degrades the unknown id. *)
Example server_for_portal_fan :
  fst (fst (Server.recommendHandler standalone portalFan initialCache))
    = Ok (mkResponse 200
            (OkBody [ Server.enriched (Server.fromDoc tetris) "Pure puzzle.";
                      Server.enriched (Server.fromDoc doom) "A classic.";
                      Server.degraded 5 "Made up." ])).
Proof. vm_compute. reflexivity. Qed.

(** An accented favorite selects the candidate whose name differs from it
    in case only: the genre filter narrows to that candidate's genre. *)
Example accented_favorite_is_matched :
  Functions.filterByGenre [pokemon; doom] ["pokémon"] = [pokemon].
Proof. vm_compute. reflexivity. Qed.

(** Both favorites, one of them accented, are recognised: excluding them
    leaves seven puzzle games, fewer than eight, so the pool is the genre
    filter's nine games, the two favorites among them. *)
Example accented_favorites_are_recognised :
  length (Functions.excludeFavorites
            (Functions.filterByGenre accented ["portal 2"; "pokémon"])
            ["portal 2"; "pokémon"]) = 7%nat /\
  Functions.requestPool accented ["portal 2"; "pokémon"]
    = [ portal2; pokemon; tetris;
        puzzleGame 11 "Baba Is You"; puzzleGame 12 "The Witness";
        puzzleGame 13 "Braid"; puzzleGame 14 "Limbo";
        puzzleGame 15 "Fez"; puzzleGame 16 "Inside" ].
Proof. split; vm_compute; reflexivity. Qed.

Lemma reconcile_one_record_per_item_witness :
  (exists out,
      Functions.finalResult puzzlePool (Functions.out_recommendations modelOutput)
        !! 3%nat = Some out /\
      Functions.rec_reason out = "Made up." /\
      Functions.rec_id out = Null /\ Functions.rec_name out = Null) /\
  (exists out game,
      Functions.finalResult puzzlePool (Functions.out_recommendations modelOutput)
        !! 1%nat = Some out /\
      puzzlePool !! 1%nat = Some game /\
      Functions.rec_name out = doc_name game) /\
  (exists records,
      Functions.recommendHandler configured portalFan initialCache =
        (Ok (mkResponse 200
               (OkBody (Functions.mkPayload "Puzzle games close to Portal 2." records))),
         mkCache (Some catalogue) 1762000000000,
         [StoreGet "rawgTopGames";
          LlmCreate (Functions.llmRequest puzzlePool ["Portal 2"] "[...]")]) /\
      length records = 8%nat).
Proof.
  destruct (proj1 reconcile_one_record_per_item puzzlePool
              (Functions.out_recommendations modelOutput)) as [_ H].
  split; [|split].
  - destruct (H 3%nat (Functions.mkItem 999 "Made up.") eq_refl)
      as (out & Hout & Hreason & _ & Hdeg).
    destruct Hdeg as (Hid & Hname & _); [simpl; lia|].
    exists out. auto.
  - destruct (H 1%nat (Functions.mkItem 1 "Rule bending.") eq_refl)
      as (out & Hout & _ & Hin & _).
    destruct Hin as (game & Hgame & _ & Hname & _); [simpl; lia|].
    exists out, game. auto.
  - destruct (proj2 reconcile_one_record_per_item configured portalFan initialCache
                ["Portal 2"] catalogue (mkCache (Some catalogue) 1762000000000)
                [StoreGet "rawgTopGames"] modelOutput)
      as (records & Hrun & _ & Hlen);
      [reflexivity | discriminate | reflexivity | reflexivity | reflexivity |].
    exists records. split; [exact Hrun | exact Hlen].
Defined.

Lemma selectPool_size_floor_witness :
  (Nat.min 8 (length catalogue) <= length (Functions.requestPool catalogue ["Portal 2"]))%nat /\
  Functions.requestPool [portal2; doom; tetris] ["Portal 2"] = [portal2; doom; tetris].
Proof.
  split.
  - apply (selectPool_size_floor catalogue ["Portal 2"]). simpl. lia.
  - apply (selectPool_size_floor [portal2; doom; tetris] ["Portal 2"]). simpl. lia.
Defined.

Lemma selectPool_narrowest_stage_witness :
  (8 <= length (Functions.requestPool catalogue ["Portal 2"]))%nat /\
  sublist (Functions.requestPool catalogue ["Portal 2"]) catalogue /\
  Functions.requestPool [portal2; doom; tetris] ["Portal 2"] = [portal2; doom; tetris].
Proof.
  destruct (selectPool_narrowest_stage catalogue ["Portal 2"])
    as (_ & _ & _ & Hmeets & _).
  destruct (selectPool_narrowest_stage [portal2; doom; tetris] ["Portal 2"])
    as (_ & _ & _ & _ & Hnone).
  split; [|split].
  - apply (Hmeets catalogue); [|simpl; lia].
    apply list_elem_of_further, list_elem_of_further, list_elem_of_here.
  - apply (Hmeets catalogue); [|simpl; lia].
    apply list_elem_of_further, list_elem_of_further, list_elem_of_here.
  - apply Hnone. intros stage Hstage.
    apply elem_of_cons in Hstage as [-> | Hstage]; [vm_compute; lia|].
    apply elem_of_cons in Hstage as [-> | Hstage]; [vm_compute; lia|].
    apply list_elem_of_singleton in Hstage as ->. simpl. lia.
Defined.

Lemma filterByGenre_never_empty_witness :
  Functions.filterByGenre catalogue ["Portal 2"] <> [] /\
  Server.filterByGenre library ["Portal 2"] <> [].
Proof.
  split.
  - apply (proj1 filterByGenre_never_empty catalogue ["Portal 2"]). discriminate.
  - apply (proj2 filterByGenre_never_empty library ["Portal 2"]). discriminate.
Defined.

Lemma filterByGenre_identity_without_match_witness :
  Functions.filterByGenre [pokemon; doom] ["Pokemon"] = [pokemon; doom].
Proof.
  apply (proj1 filterByGenre_identity_without_match).
  intros name f Hname Hf.
  apply list_elem_of_fmap in Hname as (g & -> & Hg).
  apply list_elem_of_singleton in Hf as ->.
  repeat (apply elem_of_cons in Hg as [-> | Hg];
          [intros E; vm_compute in E; discriminate E|]).
  now apply not_elem_of_nil in Hg.
Defined.

(** C5 (as stated) fails: the favorite [""] equals no candidate's name,
    yet selects the candidate that has no name, whose genre narrows the
    pool. *)
Lemma filterByGenre_identity_counterexample :
  noFavoriteNamed (map doc_name [untitled; doom]) [""] /\
  Functions.filterByGenre [untitled; doom] [""] <> [untitled; doom].
Proof. exact nameless_candidate_is_matched. Qed.

Lemma cache_validity_and_fetches_witness :
  let warm := mkCache (Some puzzlePool) 1762000000000 in
  Functions.loadCandidateGames (Snapshot catalogue) 1762000599999 false warm
    = (Ok puzzlePool, warm, []) /\
  (first <- Functions.loadCandidateGames (Snapshot catalogue) 1762000000001 false ;;
   second <- Functions.loadCandidateGames (StoreFailure (mkError "Error" "unavailable"))
               1762000599999 false ;;
   ret (first, second))%eff warm = (Ok (puzzlePool, puzzlePool), warm, []) /\
  storeReads (snd (Functions.loadCandidateGames (Snapshot catalogue) 1762000600000
                     false warm)) = 1%nat /\
  storeReads (snd (Server.loadCandidateGames (Snapshot catalogue) 5 false initialCache))
    = 1%nat /\
  storeReads (snd (Server.loadCandidateGames (Snapshot catalogue) 1762000000001 true
                     (mkCache (Some library) 1762000000000))) = 1%nat.
Proof.
  intros warm.
  destruct (cache_validity_and_fetches (fun doc : Doc => doc))
    as (_ & Hfresh & Htwice & Hfetch).
  destruct (cache_validity_and_fetches Server.fromDoc) as (_ & _ & _ & Hserver).
  split; [|split; [|split; [|split]]].
  - apply (Hfresh (Snapshot catalogue) 1762000599999 warm puzzlePool);
      [reflexivity | vm_compute; reflexivity].
  - apply (Htwice (Snapshot catalogue) (StoreFailure (mkError "Error" "unavailable"))
             1762000000001 1762000599999 warm puzzlePool);
      [reflexivity | vm_compute; reflexivity | vm_compute; reflexivity].
  - apply (Hfetch (Snapshot catalogue) 1762000600000 false warm).
    right. right. vm_compute. discriminate.
  - apply (Hserver (Snapshot catalogue) 5 false initialCache).
    right. left. reflexivity.
  - apply (Hserver (Snapshot catalogue) 1762000000001 true
             (mkCache (Some library) 1762000000000)).
    left. reflexivity.
Defined.

Lemma invalid_favorites_rejected_before_io_witness :
  Server.recommendHandler standalone emptyFavorites initialCache
    = (Ok rejection, initialCache, []) /\
  Functions.recommendHandler configured (mkRequest None [("favorites", JStr "Portal 2")])
      initialCache
    = (Ok rejection, initialCache, []) /\
  (exists response trace,
      Functions.recommendRoute unconfigured (mkRequest (Some "Bearer token") [])
          initialCache
        = (Ok response, initialCache, trace) /\
      storeReads trace = 0%nat /\ llmCalls trace = 0%nat).
Proof.
  destruct invalid_favorites_rejected_before_io as (Hserver & Hfunctions & Hroute).
  split; [|split].
  - apply Hserver. right. right. reflexivity.
  - apply Hfunctions; [|reflexivity].
    right. left. exists (JStr "Portal 2"). split; [reflexivity | discriminate].
  - apply Hroute. left. reflexivity.
Defined.

(** C8 (as stated) fails in functions/index.js: with no OpenAI client the
    handler answers an empty favorites array with 500. *)
Lemma invalid_favorites_unconfigured_counterexample :
  favoritesRejected (req_body emptyFavorites) /\
  Functions.recommendHandler unconfigured emptyFavorites initialCache
    = (Ok (mkResponse 500 (ErrorBody "OpenAI is not configured on the server")),
       initialCache, []) /\
  Functions.recommendHandler unconfigured emptyFavorites initialCache
    <> (Ok rejection, initialCache, []).
Proof.
  split; [right; right; reflexivity|].
  split; [reflexivity | discriminate].
Qed.


Lemma reconcile_by_id_over_all_candidates_witness :
  Server.recommendHandler standalone portalFan initialCache
    = (Ok (mkResponse 200 (OkBody (map (Server.reconcile library) citedItems))),
       mkCache (Some library) 1762000000000,
       [StoreGet "rawgTopGames";
        LlmCreate (Server.llmRequest ["Portal 2"] "[...]")]) /\
  Server.reconcile library (Server.mkItem 5 "Made up.") = Server.degraded 5 "Made up." /\
  (exists before game after,
      library = before ++ game :: after /\
      Server.game_id game = Val 2454 /\
      Server.reconcile library (Server.mkItem 2454 "A classic.")
        = Server.enriched game "A classic.").
Proof.
  destruct reconcile_by_id_over_all_candidates as (Hrun & Hhit & Hmiss & _).
  split; [|split].
  - apply (Hrun standalone portalFan initialCache ["Portal 2"] library
             (mkCache (Some library) 1762000000000) [StoreGet "rawgTopGames"] citedItems);
      [discriminate | reflexivity | reflexivity | reflexivity].
  - apply (Hmiss library (Server.mkItem 5 "Made up.")).
    intros g Hg. apply list_elem_of_In in Hg. vm_compute in Hg.
    repeat (destruct Hg as [<- | Hg]; [discriminate|]). destruct Hg.
  - destruct (Hhit library (Server.mkItem 2454 "A classic."))
      as (before & game & after & Hsplit & _ & Hid & Hrec).
    + exists (Server.fromDoc doom). split; [|reflexivity].
      apply list_elem_of_In. vm_compute. tauto.
    + exists before, game, after. auto.
Defined.

Lemma store_failure_is_500_witness :
  Functions.recommendHandler outage portalFan initialCache
    = (Ok (mkResponse 500 (ErrorBody "14 UNAVAILABLE")), initialCache,
       [StoreGet "rawgTopGames"]) /\
  Server.recommendHandler standaloneOutage portalFan (mkCache (Some library) 5)
    = (Ok (mkResponse 500 (ErrorBody "Internal LLM or Firestore error")),
       mkCache (Some library) 5, [StoreGet "rawgTopGames"]).
Proof.
  split.
  - apply (proj1 store_failure_is_500 outage portalFan initialCache
             (JStr "Portal 2") [] (mkError "Error" "14 UNAVAILABLE"));
      [reflexivity | reflexivity | left; reflexivity | reflexivity].
  - apply (proj2 store_failure_is_500 standaloneOutage portalFan
             (mkCache (Some library) 5)
             (JStr "Portal 2") [] (mkError "Error" "14 UNAVAILABLE"));
      [reflexivity | right; vm_compute; discriminate | reflexivity].
Defined.

Lemma fresh_cache_spares_the_store_witness :
  (exists response trace,
      Functions.recommendHandler outage portalFan
        (mkCache (Some catalogue) 1762000000000)
        = (Ok response, mkCache (Some catalogue) 1762000000000, trace) /\
      storeReads trace = 0%nat) /\
  (exists response trace,
      Server.recommendHandler standaloneOutage portalFan
        (mkCache (Some library) 1762000000000)
        = (Ok response, mkCache (Some library) 1762000000000, trace) /\
      storeReads trace = 0%nat).
Proof.
  split.
  - apply (proj1 fresh_cache_spares_the_store outage portalFan _ catalogue).
    split; [reflexivity | vm_compute; reflexivity].
  - apply (proj2 fresh_cache_spares_the_store standaloneOutage portalFan _ library).
    split; [reflexivity | vm_compute; reflexivity].
Defined.

Lemma authGuard_decision_witness :
  Functions.authGuard configured mixedFavorites initialCache
    = (Ok (Functions.Responded
             (mkResponse 401 (ErrorBody "Missing Authorization header"))),
       initialCache, []) /\
  Functions.authGuard stranger portalFan initialCache
    = (Ok (Functions.Responded (mkResponse 403 (ErrorBody "Not allowed"))),
       initialCache, [VerifyIdToken "token"]) /\
  Functions.authGuard configured portalFan initialCache
    = (Ok (Functions.Next (mkDecodedToken (Val "yzhou677@gmail.com"))),
       initialCache, [VerifyIdToken "token"]).
Proof.
  split; [|split].
  - apply (proj1 (authGuard_decision configured mixedFavorites initialCache)).
    intros idToken (H & _). discriminate H.
  - apply (proj1 (proj2 (proj2 (authGuard_decision stranger portalFan initialCache)))
             "token" (mkDecodedToken (Val "someone@example.com")));
      [split; [reflexivity | split; [discriminate | reflexivity]]
      | reflexivity | discriminate].
  - apply (proj2 (proj2 (proj2 (authGuard_decision configured portalFan initialCache)))
             "token" (mkDecodedToken (Val "yzhou677@gmail.com")));
      [split; [reflexivity | split; [discriminate | reflexivity]]
      | reflexivity | reflexivity].
Defined.

Lemma model_failure_is_500_witness :
  (Functions.recommendHandler mute portalFan initialCache
     = (Ok (mkResponse 500 (ErrorBody "Connection error.")),
        mkCache (Some catalogue) 1762000000000,
        [StoreGet "rawgTopGames";
         LlmCreate (Functions.llmRequest puzzlePool ["Portal 2"] "[...]")]) /\
   cachedGames (mkCache (Some catalogue) 1762000000000) = Some catalogue) /\
  (Server.recommendHandler standaloneGarbled portalFan initialCache
     = (Ok (mkResponse 500 (ErrorBody "Internal LLM or Firestore error")),
        mkCache (Some library) 1762000000000,
        [StoreGet "rawgTopGames";
         LlmCreate (Server.llmRequest ["Portal 2"] "[...]")]) /\
   cachedGames (mkCache (Some library) 1762000000000) = Some library).
Proof.
  split.
  - apply (proj1 model_failure_is_500 mute portalFan initialCache ["Portal 2"]
             catalogue (mkCache (Some catalogue) 1762000000000)
             [StoreGet "rawgTopGames"]
             (mkError "APIConnectionError" "Connection error."));
      [reflexivity | discriminate | reflexivity | reflexivity | left; reflexivity].
  - apply (proj2 model_failure_is_500 standaloneGarbled portalFan initialCache
             ["Portal 2"] library (mkCache (Some library) 1762000000000)
             [StoreGet "rawgTopGames"]
             (mkError "SyntaxError" "Unexpected end of JSON input"));
      [discriminate | reflexivity | reflexivity | right; reflexivity].
Defined.

Lemma non_string_favorite_is_500_witness :
  (exists response,
      Functions.recommendHandler configured mixedFavorites initialCache
        = (Ok response, mkCache (Some catalogue) 1762000000000,
           [StoreGet "rawgTopGames"]) /\
      status response = 500) /\
  (exists response,
      Server.recommendHandler standalone mixedFavorites initialCache
        = (Ok response, mkCache (Some library) 1762000000000,
           [StoreGet "rawgTopGames"]) /\
      status response = 500).
Proof.
  split.
  - apply (proj1 non_string_favorite_is_500 configured mixedFavorites initialCache
             [JStr "Portal 2"; JNum (inject_Z 7)] (JNum (inject_Z 7)));
      [reflexivity | reflexivity
      | apply list_elem_of_further, list_elem_of_here | discriminate].
  - apply (proj2 non_string_favorite_is_500 standalone mixedFavorites initialCache
             [JStr "Portal 2"; JNum (inject_Z 7)] (JNum (inject_Z 7)));
      [reflexivity | apply list_elem_of_further, list_elem_of_here | discriminate].
Defined.



Lemma filterByGenre_without_last_fallback_witness :
  List.filter (sharesLiked (likedGenres catalogue ["Portal 2"])) catalogue <> [] /\
  size (likedGenres catalogue ["Portal 2"]) = 1%nat.
Proof.
  split; [|vm_compute; reflexivity].
  apply (proj2 (filterByGenre_without_last_fallback catalogue ["Portal 2"])).
  vm_compute. discriminate.
Defined.

Lemma filterByGenre_keeps_liked_witness :
  Functions.filterByGenre [pokemon; doom] ["Pokemon"] = [pokemon; doom] /\
  (tetris ∈ Functions.filterByGenre accented ["pokémon"] <->
   tetris ∈ accented /\ likedBy accented ["pokémon"] tetris).
Proof.
  split.
  - apply (proj1 (filterByGenre_keeps_liked [pokemon; doom] ["Pokemon"])).
    intros fav Hfav (f & Hf & Hname).
    apply list_elem_of_singleton in Hf as ->.
    repeat (apply elem_of_cons in Hfav as [-> | Hfav];
            [vm_compute in Hname; discriminate Hname|]).
    now apply not_elem_of_nil in Hfav.
  - apply (proj2 (filterByGenre_keeps_liked accented ["pokémon"])).
    exists pokemon. split; [apply list_elem_of_further, list_elem_of_here|].
    split; [|discriminate].
    exists "pokémon". split; [apply list_elem_of_here | reflexivity].
Defined.

Lemma favorites_matter_up_to_case_witness :
  Functions.requestPool accented ["POKÉMON"; "pokémon"]
    = Functions.requestPool accented ["Pokémon"].
Proof.
  apply (favorites_matter_up_to_case accented ["POKÉMON"; "pokémon"] ["Pokémon"]).
  intros k. simpl. rewrite !elem_of_cons. split.
  - intros [-> | [-> | H]]; [now left | now left | now apply not_elem_of_nil in H].
  - intros [-> | H]; [now left | now apply not_elem_of_nil in H].
Defined.

Lemma pool_within_candidates_witness :
  sublist (Functions.requestPool catalogue ["Portal 2"]) catalogue /\
  Functions.requestPool catalogue ["Portal 2"] <> [].
Proof.
  split.
  - apply (proj1 (pool_within_candidates catalogue ["Portal 2"])).
  - apply (proj2 (pool_within_candidates catalogue ["Portal 2"])). discriminate.
Defined.

Lemma pool_excludes_favorites_witness :
  namedBy ["pokémon"] pokemon /\
  pokemon ∉ Functions.requestPool accented ["pokémon"].
Proof.
  assert (Hnamed : namedBy ["pokémon"] pokemon)
    by (exists "pokémon"; split; [apply list_elem_of_here | reflexivity]).
  split; [exact Hnamed|].
  intros Hin.
  apply (pool_excludes_favorites accented ["pokémon"]) in Hin.
  - exact (Hin Hnamed).
  - vm_compute. lia.
Defined.

Lemma index_round_trip_witness :
  Functions.reconcile puzzlePool (Functions.mkItem 1 "Rule bending.")
    = Functions.enriched (puzzleGame 11 "Baba Is You") "Rule bending.".
Proof.
  apply (index_round_trip puzzlePool 1 (puzzleGame 11 "Baba Is You")). reflexivity.
Defined.

Lemma valid_indexes_all_resolve_witness :
  exists r game,
    r ∈ [Functions.mkItem 0 "Pure puzzle."] /\ game ∈ puzzlePool /\
    Functions.enriched tetris "Pure puzzle."
      = Functions.enriched game (Functions.reason r).
Proof.
  apply (valid_indexes_all_resolve puzzlePool [Functions.mkItem 0 "Pure puzzle."]).
  - intros r Hr. apply list_elem_of_singleton in Hr as ->.
    vm_compute. apply list_elem_of_here.
  - vm_compute. apply list_elem_of_here.
Defined.

Lemma small_pool_forces_repeats_witness :
  Functions.requestPool [portal2; doom; tetris] ["Portal 2"] = [portal2; doom; tetris] /\
  ~ NoDup (map Functions.index
             [ Functions.mkItem 0 "a"; Functions.mkItem 1 "b"; Functions.mkItem 2 "c";
               Functions.mkItem 0 "d"; Functions.mkItem 1 "e"; Functions.mkItem 2 "f";
               Functions.mkItem 0 "g"; Functions.mkItem 1 "h" ]).
Proof.
  split; [vm_compute; reflexivity|].
  apply (small_pool_forces_repeats [portal2; doom; tetris]).
  - simpl. lia.
  - reflexivity.
  - intros r Hr. vm_compute.
    repeat (apply elem_of_cons in Hr as [-> | Hr];
            [first [ apply list_elem_of_here
                   | apply list_elem_of_further, list_elem_of_here
                   | apply list_elem_of_further, list_elem_of_further, list_elem_of_here ]|]).
    now apply not_elem_of_nil in Hr.
Defined.

Lemma degraded_means_unknown_id_witness :
  Server.reconcile library (Server.mkItem 5 "Made up.") = Server.degraded 5 "Made up." /\
  (exists names, Server.game_genres (Server.fromDoc tetris) = Val names).
Proof.
  destruct (degraded_means_unknown_id catalogue (Server.mkItem 5 "Made up."))
    as (Hgenres & Hiff).
  split.
  - apply Hiff. intros g Hg. apply list_elem_of_In in Hg. vm_compute in Hg.
    repeat (destruct Hg as [<- | Hg]; [discriminate|]). destruct Hg.
  - apply Hgenres. apply list_elem_of_further, list_elem_of_further, list_elem_of_here.
Defined.

Lemma reloadRoute_outcomes_witness :
  Functions.reloadRoute configured (mkCache (Some puzzlePool) 5)
    = (Ok (mkResponse 200 (OkBody true)),
       mkCache (Some catalogue) 1762000000000, [StoreGet "rawgTopGames"]) /\
  Server.reloadRoute
      (Server.mkEnv 7 (StoreFailure (mkError "Error" "unavailable"))
         (fun _ => "[]") (fun _ => Server.LlmText (Ok [])))
      (mkCache (Some library) 5)
    = (Ok (mkResponse 500 (ErrorBody "Failed to reload candidates")),
       mkCache (Some library) 5, [StoreGet "rawgTopGames"]).
Proof.
  destruct reloadRoute_outcomes as (_ & Hok & Hfail & _).
  split.
  - apply (Hok configured (mkCache (Some puzzlePool) 5) catalogue). reflexivity.
  - apply (Hfail _ (mkCache (Some library) 5) (mkError "Error" "unavailable")).
    reflexivity.
Defined.
